(** * go-orbitdb: entry model and identity subsystem

    A shallow embedding of the trust-and-addressing core of go-orbitdb:
    - [oplog/entry.go]: [Entry], [EncodedEntry], [Encode], [NewEntry],
      [VerifyEntrySignature];
    - the public-key provider ([PublicKeyProvider]): [createHardcodedKeyPair],
      [signData], [CreateIdentity], [VerifyIdentity];
    - the legacy provider ([PublicKeyIdentityProvider]):
      [VerifyIdentityWithEntry];
    - the identity manager ([Identities]): [VerifyIdentity].

    The Go libraries the code calls (encoding/hex, math/big, crypto/sha256,
    crypto/elliptic, crypto/ecdsa, go-ipld-prime's dag-cbor codec, multihash
    and cid) are modelled executably, so that every function of the
    repository can be run on concrete inputs inside Rocq.

    Conventions: a Go pointer is an [option] ([None] for [nil]); a result
    pair [(T, error)] is a pair with an [option error]; a call that can
    panic returns an [outcome]; the random reader and the provider
    registries, process-wide state in Go, are explicit arguments. *)

From Stdlib Require Import ZArith Lia List Bool Ascii Strings.Byte Uint63.
From Stdlib Require Import Sorting.Permutation Sorting.Sorted.
From Stdlib Require OrderedTypeEx.
From Bignums Require Import BigZ.
From stdpp Require Import base option list sorting strings gmap.

Set Warnings "-register-all".
Local Open Scope Z_scope.

(** ** Go values: byte slices, results, errors *)

(** A Go [[]byte]. *)
Abbreviation bytes := (list byte).

(** A Go [error] value is identified with its message. *)
Definition error := string.

(** A Go call either returns a value or panics (terminating the process
    unless recovered). *)
Inductive outcome (A : Type) : Type :=
| Returns (a : A)
| Panics (e : error).
Arguments Returns {A} a.
Arguments Panics {A} e.

#[global] Instance outcome_bind : MBind outcome :=
  fun A B k m =>
    match m with
    | Returns a => k a
    | Panics e => Panics e
    end.

(** A Go result pair [(T, error)]: the value and the error, [None] for a
    [nil] error. *)
Definition result (A : Type) : Type := (A * option error)%type.

(** Go's slicing of a string, [s[:n]] and [s[n:]], for [n <= len(s)]. *)
Definition slice_to (n : nat) (s : string) : string := String.substring 0 n s.
Definition slice_from (n : nat) (s : string) : string :=
  String.substring n (String.length s - n) s.

(** The outcome of the process-wide random reader ([rand.Reader]), per
    use: [Some k] for the nonce the signer draws from it, [None] when
    reading fails. *)
Definition Reader : Type := nat -> option Z.

Definition byte_to_Z (b : byte) : Z := Z.of_N (Byte.to_N b).

Definition Z_to_byte (z : Z) : byte :=
  match Byte.of_N (Z.to_N (z mod 256)) with
  | Some b => b
  | None => x00
  end.

(** [[]byte(s)]. *)
Definition bytes_of_string (s : string) : bytes := String.list_byte_of_string s.

(** ** encoding/hex *)

Module hex.

Definition hextable : string := "0123456789abcdef".

Definition digit (n : Z) : ascii :=
  match String.get (Z.to_nat n) hextable with
  | Some c => c
  | None => "0"%char
  end.

(** [hex.EncodeToString]: two lower-case digits per byte. *)
Fixpoint EncodeToString (src : bytes) : string :=
  match src with
  | [] => EmptyString
  | b :: rest =>
      String (digit (byte_to_Z b / 16))
        (String (digit (byte_to_Z b mod 16)) (EncodeToString rest))
  end.

Definition fromHexChar (c : ascii) : option Z :=
  let k := Z.of_N (N_of_ascii c) in
  if (48 <=? k) && (k <=? 57) then Some (k - 48)
  else if (97 <=? k) && (k <=? 102) then Some (k - 97 + 10)
  else if (65 <=? k) && (k <=? 70) then Some (k - 65 + 10)
  else None.

(** [hex.DecodeString]: [None] when the length is odd or a character is
    not a hexadecimal digit. *)
Fixpoint DecodeString (s : string) : option bytes :=
  match s with
  | EmptyString => Some []
  | String _ EmptyString => None
  | String c1 (String c2 rest) =>
      match fromHexChar c1, fromHexChar c2, DecodeString rest with
      | Some h, Some l, Some tl => Some (Z_to_byte (h * 16 + l) :: tl)
      | _, _, _ => None
      end
  end.

End hex.

(** ** math/big *)

Module big.

(** Big-endian bytes of [x] on exactly [n] bytes ([FillBytes]). *)
Fixpoint be_bytes (n : nat) (x : Z) : bytes :=
  match n with
  | O => []
  | S n' => be_bytes n' (x / 256) ++ [Z_to_byte x]
  end.

(** Number of bytes of the absolute value: [(BitLen + 7) / 8]. *)
Definition byte_len (x : Z) : nat :=
  if Z.abs x =? 0 then O else Z.to_nat (Z.log2 (Z.abs x) / 8 + 1).

(** [Int.Bytes]: the big-endian bytes of the absolute value, without
    leading zero bytes (the empty slice for zero). *)
Definition Bytes (x : Z) : bytes := be_bytes (byte_len x) (Z.abs x).

(** [Int.SetBytes]: big-endian unsigned integer. *)
Definition SetBytes (b : bytes) : Z :=
  fold_left (fun acc c => acc * 256 + byte_to_Z c) b 0.

(** Value of a digit character in a base up to 36; letters are accepted
    in both cases. *)
Definition digit_val (c : ascii) : option Z :=
  let k := Z.of_N (N_of_ascii c) in
  if (48 <=? k) && (k <=? 57) then Some (k - 48)
  else if (97 <=? k) && (k <=? 122) then Some (k - 97 + 10)
  else if (65 <=? k) && (k <=? 90) then Some (k - 65 + 10)
  else None.

(** The digit loop of [nat.scan] for a fixed non-zero base: every
    character must be a digit below the base ([SetString] rejects any
    trailing input). *)
Fixpoint scan_digits (base : Z) (acc : Z) (s : string) : option Z :=
  match s with
  | EmptyString => Some acc
  | String c rest =>
      match digit_val c with
      | Some d => if d <? base then scan_digits base (acc * base + d) rest
                  else None
      | None => None
      end
  end.

Definition scan_abs (base : Z) (s : string) : option Z :=
  match s with
  | EmptyString => None
  | _ => scan_digits base 0 s
  end.

(** [Int.SetString(s, base)] for an explicit base in 2..36: an
    optional sign, then at least one digit, then the end of the string.
    [None] is the [ok = false] result. *)
Definition SetString (s : string) (base : Z) : option Z :=
  match s with
  | String "-"%char rest => Z.opp <$> scan_abs base rest
  | String "+"%char rest => scan_abs base rest
  | _ => scan_abs base s
  end.

End big.

(** ** crypto/sha256 *)

Module sha256.

(** A 32-bit word, held in a machine integer below [2^32]. *)
Definition word : Type := Uint63.int.

Definition mask32 : word := 4294967295%uint63.
Definition w32 (x : word) : word := Uint63.land x mask32.
Definition add32 (x y : word) : word := w32 (Uint63.add x y).
Definition rotr (n : word) (x : word) : word :=
  Uint63.lor (Uint63.lsr x n) (w32 (Uint63.lsl x (Uint63.sub 32%uint63 n))).
Definition shr (n : word) (x : word) : word := Uint63.lsr x n.
Definition not32 (x : word) : word := Uint63.lxor x mask32.
Definition xor3 (x y z : word) : word := Uint63.lxor (Uint63.lxor x y) z.

Definition Ch (x y z : word) : word :=
  Uint63.lxor (Uint63.land x y) (Uint63.land (not32 x) z).
Definition Maj (x y z : word) : word :=
  xor3 (Uint63.land x y) (Uint63.land x z) (Uint63.land y z).
Definition bsig0 (x : word) : word :=
  xor3 (rotr 2%uint63 x) (rotr 13%uint63 x) (rotr 22%uint63 x).
Definition bsig1 (x : word) : word :=
  xor3 (rotr 6%uint63 x) (rotr 11%uint63 x) (rotr 25%uint63 x).
Definition ssig0 (x : word) : word :=
  xor3 (rotr 7%uint63 x) (rotr 18%uint63 x) (shr 3%uint63 x).
Definition ssig1 (x : word) : word :=
  xor3 (rotr 17%uint63 x) (rotr 19%uint63 x) (shr 10%uint63 x).

(** The round constants: the first 32 bits of the fractional parts of the
    cube roots of the first 64 primes. *)
Definition K : list word :=
  [ 1116352408; 1899447441; 3049323471; 3921009573; 961987163;
    1508970993; 2453635748; 2870763221; 3624381080; 310598401;
    607225278; 1426881987; 1925078388; 2162078206; 2614888103;
    3248222580; 3835390401; 4022224774; 264347078; 604807628;
    770255983; 1249150122; 1555081692; 1996064986; 2554220882;
    2821834349; 2952996808; 3210313671; 3336571891; 3584528711;
    113926993; 338241895; 666307205; 773529912; 1294757372;
    1396182291; 1695183700; 1986661051; 2177026350; 2456956037;
    2730485921; 2820302411; 3259730800; 3345764771; 3516065817;
    3600352804; 4094571909; 275423344; 430227734; 506948616;
    659060556; 883997877; 958139571; 1322822218; 1537002063;
    1747873779; 1955562222; 2024104815; 2227730452; 2361852424;
    2428436474; 2756734187; 3204031479; 3329325298 ]%uint63.

(** Padding: a 1 bit, zeros up to 56 mod 64 bytes, the bit length on 8
    bytes. *)
Definition pad (msg : bytes) : bytes :=
  let len := Z.of_nat (length msg) in
  let zeros := Z.to_nat ((55 - len) mod 64) in
  msg ++ [x80] ++ repeat x00 zeros ++ big.be_bytes 8 (8 * len).

Definition byte_to_word (b : byte) : word := Uint63.of_Z (byte_to_Z b).

(** The big-endian 32-bit words of a byte string. *)
Fixpoint words (b : bytes) : list word :=
  match b with
  | b0 :: b1 :: b2 :: b3 :: rest =>
      Uint63.lor
        (Uint63.lor (Uint63.lsl (byte_to_word b0) 24%uint63)
           (Uint63.lsl (byte_to_word b1) 16%uint63))
        (Uint63.lor (Uint63.lsl (byte_to_word b2) 8%uint63) (byte_to_word b3))
      :: words rest
  | _ => []
  end.

(** Message schedule, kept in reverse: the head is the latest word. *)
Fixpoint schedule (n : nat) (rev_w : list word) : list word :=
  match n with
  | O => rev_w
  | S n' =>
      let g i := nth i rev_w 0%uint63 in
      schedule n'
        (add32 (add32 (ssig1 (g 1%nat)) (g 6%nat))
               (add32 (ssig0 (g 14%nat)) (g 15%nat)) :: rev_w)
  end.

Definition state : Type :=
  (word * word * word * word * word * word * word * word)%type.

Definition round (st : state) (kw : word * word) : state :=
  let '(a, b, c, d, e, f, g, h) := st in
  let t1 := add32 (add32 (add32 h (bsig1 e)) (add32 (Ch e f g) kw.1)) kw.2 in
  let t2 := add32 (bsig0 a) (Maj a b c) in
  (add32 t1 t2, a, b, c, add32 d t1, e, f, g).

Definition compress (st : state) (block : list word) : state :=
  let ws := rev (schedule 48 (rev block)) in
  let '(a, b, c, d, e, f, g, h) := fold_left round (combine K ws) st in
  let '(a0, b0, c0, d0, e0, f0, g0, h0) := st in
  (add32 a0 a, add32 b0 b, add32 c0 c, add32 d0 d,
   add32 e0 e, add32 f0 f, add32 g0 g, add32 h0 h).

Fixpoint blocks (n : nat) (ws : list word) (st : state) : state :=
  match n with
  | O => st
  | S n' => blocks n' (drop 16 ws) (compress st (take 16 ws))
  end.

Definition init : state :=
  (1779033703, 3144134277, 1013904242, 2773480762,
   1359893119, 2600822924, 528734635, 1541459225)%uint63.

Definition word_bytes (x : word) : bytes := big.be_bytes 4 (Uint63.to_Z x).

(** [sha256.Sum256]. *)
Definition Sum256 (msg : bytes) : bytes :=
  let ws := words (pad msg) in
  let '(a, b, c, d, e, f, g, h) := blocks (length ws / 16) ws init in
  flat_map word_bytes [a; b; c; d; e; f; g; h].

End sha256.

(** ** crypto/elliptic and crypto/ecdsa on P-256

    Field and scalar arithmetic runs on [bigZ], the counterpart of Go's
    arbitrary-precision [big.Int]; the interface of the two modules is in
    [Z]. *)

Module elliptic.

Local Open Scope bigZ_scope.

(** The domain parameters of [elliptic.P256()]. *)
Definition P : bigZ :=
  0xffffffff00000001000000000000000000000000ffffffffffffffffffffffff.
Definition N : bigZ :=
  0xffffffff00000000ffffffffffffffffbce6faada7179e84f3b9cac2fc632551.
Definition B : bigZ :=
  0x5ac635d8aa3a93e7b3ebbd55769886bc651d06b0cc53b0f63bce3c3e27d2604b.
Definition Gx : bigZ :=
  0x6b17d1f2e12c4247f8bce6e563a440f277037d812deb33a0f4a13945d898c296.
Definition Gy : bigZ :=
  0x4fe342e2fe1a7f9b8ee7eb4a7c0f9e162bce33576b315ececbb6406837bf51f5.

(** Modular exponentiation by squaring, on the binary digits of the
    exponent. *)
Fixpoint pow_mod_pos (m a : bigZ) (e : positive) : bigZ :=
  match e with
  | xH => a mod m
  | xO e' => let h := pow_mod_pos m a e' in (h * h) mod m
  | xI e' => let h := pow_mod_pos m a e' in (((h * h) mod m) * a) mod m
  end.

Definition pow_mod (m a : bigZ) (e : Z) : bigZ :=
  match e with
  | Zpos e' => pow_mod_pos m a e'
  | _ => 1 mod m
  end.

(** Inverse modulo a prime [m]. *)
Definition inv_mod (m a : bigZ) : bigZ := pow_mod m a (BigZ.to_Z (m - 2)).

(** A point in Jacobian coordinates; [Z = 0] is the point at infinity. *)
Definition jac : Type := bigZ * bigZ * bigZ.

Definition jac_inf : jac := (1, 1, 0).

Definition jac_double (p1 : jac) : jac :=
  let '(x1, y1, z1) := p1 in
  if (z1 =? 0) || (y1 =? 0) then jac_inf
  else
    let delta := (z1 * z1) mod P in
    let gamma := (y1 * y1) mod P in
    let beta := (x1 * gamma) mod P in
    let alpha := (3 * ((x1 - delta) * (x1 + delta))) mod P in
    let x3 := (alpha * alpha - 8 * beta) mod P in
    let z3 := ((y1 + z1) * (y1 + z1) - gamma - delta) mod P in
    let y3 := (alpha * (4 * beta - x3) - 8 * (gamma * gamma)) mod P in
    (x3, y3, z3).

Definition jac_add (p1 p2 : jac) : jac :=
  let '(x1, y1, z1) := p1 in
  let '(x2, y2, z2) := p2 in
  if z1 =? 0 then p2
  else if z2 =? 0 then p1
  else
    let z1z1 := (z1 * z1) mod P in
    let z2z2 := (z2 * z2) mod P in
    let u1 := (x1 * z2z2) mod P in
    let u2 := (x2 * z1z1) mod P in
    let s1 := (y1 * ((z2 * z2z2) mod P)) mod P in
    let s2 := (y2 * ((z1 * z1z1) mod P)) mod P in
    if u1 =? u2 then
      if s1 =? s2 then jac_double p1 else jac_inf
    else
      let h := (u2 - u1) mod P in
      let r := (s2 - s1) mod P in
      let hh := (h * h) mod P in
      let hhh := (h * hh) mod P in
      let v := (u1 * hh) mod P in
      let x3 := (r * r - hhh - 2 * v) mod P in
      let y3 := (r * (v - x3) - s1 * hhh) mod P in
      let z3 := (((h * z1) mod P) * z2) mod P in
      (x3, y3, z3).

Fixpoint jac_mul_pos (k : positive) (p1 : jac) : jac :=
  match k with
  | xH => p1
  | xO k' => jac_double (jac_mul_pos k' p1)
  | xI k' => jac_add (jac_double (jac_mul_pos k' p1)) p1
  end.

Definition jac_mul (k : Z) (p1 : jac) : jac :=
  match k with
  | Zpos k' => jac_mul_pos k' p1
  | _ => jac_inf
  end.

(** Affine coordinates; [None] for the point at infinity. *)
Definition to_affine (p1 : jac) : option (Z * Z) :=
  let '(x1, y1, z1) := p1 in
  if z1 =? 0 then None
  else
    let zi := inv_mod P z1 in
    let zi2 := (zi * zi) mod P in
    Some (BigZ.to_Z ((x1 * zi2) mod P),
          BigZ.to_Z ((y1 * ((zi2 * zi) mod P)) mod P)).

Definition of_affine (q : Z * Z) : jac :=
  (BigZ.of_Z q.1, BigZ.of_Z q.2, 1).

(** [Curve.IsOnCurve]: both coordinates in the field and on the curve
    [y^2 = x^3 - 3x + b]. *)
Definition IsOnCurve (q : Z * Z) : bool :=
  let x := BigZ.of_Z q.1 in
  let y := BigZ.of_Z q.2 in
  (0 <=? x) && (x <? P) && (0 <=? y) && (y <? P)
  && ((y * y) mod P =? (x * x * x - 3 * x + B) mod P).

(** [Curve.ScalarBaseMult] for a scalar in [[1, N-1]]. *)
Definition ScalarBaseMult (k : Z) : Z * Z :=
  match to_affine (jac_mul k (Gx, Gy, 1)) with
  | Some q => q
  | None => (0%Z, 0%Z)
  end.

(** The order of the base point, in [Z]. *)
Definition order : Z := BigZ.to_Z N.

(** [a * b mod N] and [a / b mod N] on scalars. *)
Definition scalar_mul (a b : Z) : Z :=
  BigZ.to_Z ((BigZ.of_Z a * BigZ.of_Z b) mod N).
Definition scalar_div (a b : Z) : Z :=
  BigZ.to_Z ((BigZ.of_Z a * inv_mod N (BigZ.of_Z b)) mod N).

End elliptic.

Module ecdsa.

(** [ecdsa.PublicKey] on P-256: the affine coordinates [X], [Y]. *)
Definition PublicKey : Type := Z * Z.

(** [ecdsa.PrivateKey] on P-256: the public key and the scalar [D]. *)
Record PrivateKey : Type := mkPrivateKey {
  Public : PublicKey;
  D : Z
}.

(** Integer of a digest as ECDSA takes it: the leftmost 32 bytes, reduced
    modulo the order. *)
Definition hashToNat (hash : bytes) : Z :=
  big.SetBytes (take 32 hash) mod elliptic.order.

(** [ecdsa.Sign(rand.Reader, priv, hash)]. The outcome of the random
    reader is explicit: [Some k] when it yields the nonce [k] of
    [[1, N-1]], [None] (or a value outside that range) when reading
    fails. An [r] or [s] equal to zero is reported as an error. *)
Definition Sign (rnd : option Z) (priv : PrivateKey) (hash : bytes)
  : (Z * Z) + error :=
  match rnd with
  | None => inr "ecdsa: reading randomness failed"
  | Some k =>
      if (0 <? k) && (k <? elliptic.order) then
        let r := (elliptic.ScalarBaseMult k).1 mod elliptic.order in
        if r =? 0 then inr "ecdsa: internal error: r is zero"
        else
          let e := hashToNat hash in
          let s :=
            elliptic.scalar_div
              (e + elliptic.scalar_mul r (D priv)) k in
          if s =? 0 then inr "ecdsa: internal error: s is zero"
          else inl (r, s)
      else inr "ecdsa: reading randomness failed"
  end.

(** [ecdsa.Verify(pub, hash, r, s)]. *)
Definition Verify (pub : PublicKey) (hash : bytes) (r s : Z) : bool :=
  if (r <=? 0) || (s <=? 0) then false
  else if negb (elliptic.IsOnCurve pub) then false
  else if (elliptic.order <=? r) || (elliptic.order <=? s) then false
  else
    let e := hashToNat hash in
    let u1 := elliptic.scalar_div e s in
    let u2 := elliptic.scalar_div r s in
    let p1 := elliptic.jac_mul u1 (elliptic.Gx, elliptic.Gy, 1%bigZ) in
    let p2 := elliptic.jac_mul u2 (elliptic.of_affine pub) in
    match elliptic.to_affine (elliptic.jac_add p1 p2) with
    | None => false
    | Some (x, _) => x mod elliptic.order =? r
    end.

End ecdsa.

(** The P-256 key pair of RFC 6979, appendix A.2.5. *)
Definition rfc6979_key : ecdsa.PrivateKey :=
  let d := 0xC9AFA9D845BA75166B5C215767B1D6934E50C3DB36E89B127B8A622B120F6721 in
  ecdsa.mkPrivateKey (elliptic.ScalarBaseMult d) d.

(** ** IPLD data model, DAG-CBOR, multihash and CID *)

(** The kinds of IPLD node the schemas of this repository use. A map node
    lists its entries in the order its iterator yields them. *)
Inductive node : Type :=
| NString (s : string)
| NInt (i : Z)
| NList (items : list node)
| NMap (entries : list (string * node)).

Module dagcbor.

(** The initial byte(s) of a CBOR item: major type and argument, on the
    fewest bytes. *)
Definition head (major : Z) (n : Z) : bytes :=
  if n <? 24 then [Z_to_byte (major * 32 + n)]
  else if n <? 256 then Z_to_byte (major * 32 + 24) :: big.be_bytes 1 n
  else if n <? 65536 then Z_to_byte (major * 32 + 25) :: big.be_bytes 2 n
  else if n <? 4294967296 then Z_to_byte (major * 32 + 26) :: big.be_bytes 4 n
  else Z_to_byte (major * 32 + 27) :: big.be_bytes 8 n.

Definition encode_string (s : string) : bytes :=
  head 3 (Z.of_nat (String.length s)) ++ bytes_of_string s.

Definition encode_int (i : Z) : bytes :=
  if 0 <=? i then head 0 i else head 1 (- 1 - i).

(** The map-key order of DAG-CBOR ([MapSortMode_RFC7049]): shorter keys
    first, keys of equal length bytewise. *)
Definition key_less (k1 k2 : string) : bool :=
  if (String.length k1 =? String.length k2)%nat then String.ltb k1 k2
  else (String.length k1 <? String.length k2)%nat.

(** The order the entries are sorted by: [a] may stand before [b] when
    [b]'s key is not less than [a]'s. *)
Definition entry_le {A} (a b : string * A) : Prop :=
  key_less b.1 a.1 = false.

#[global] Instance entry_le_dec {A} (a b : string * A) :
  Decision (entry_le a b) := bool_eq_dec _ _.

Definition sort_entries {A} (l : list (string * A)) : list (string * A) :=
  merge_sort entry_le l.

(** The encoding of a node. The entries of a map are emitted in key
    order, each key as a string item followed by its value. *)
Fixpoint encode_node (n : node) : bytes :=
  match n with
  | NString s => encode_string s
  | NInt i => encode_int i
  | NList items =>
      head 4 (Z.of_nat (length items)) ++ flat_map encode_node items
  | NMap entries =>
      head 5 (Z.of_nat (length entries))
      ++ flat_map (fun kv => encode_string kv.1 ++ kv.2)
           (sort_entries (map (fun kv => (kv.1, encode_node kv.2)) entries))
  end.

(** [dagcbor.Encode(node, &buf)] into a fresh in-memory buffer: the
    bytes written, or the encoder's error. Every node of the kinds above
    encodes. *)
Definition Encode (n : node) : bytes + error := inl (encode_node n).

End dagcbor.

Module mh.

Definition SHA2_256 : Z := 0x12.

(** Unsigned varint: seven bits per byte, least significant first. *)
Fixpoint uvarint_fuel (fuel : nat) (n : Z) : bytes :=
  match fuel with
  | O => []
  | S fuel' =>
      if n <? 128 then [Z_to_byte n]
      else Z_to_byte (n mod 128 + 128) :: uvarint_fuel fuel' (n / 128)
  end.
Definition uvarint (n : Z) : bytes := uvarint_fuel 10 n.

(** [mh.Sum(data, code, length)]: the multihash of [data]. Only the
    SHA2-256 code is modelled; a length of [-1] keeps the whole digest,
    a length beyond the digest size is an error. *)
Definition Sum (data : bytes) (code : Z) (length : Z) : bytes + error :=
  if code =? SHA2_256 then
    let digest := sha256.Sum256 data in
    if length =? -1 then inl (uvarint code ++ uvarint 32 ++ digest)
    else if (0 <=? length) && (length <=? 32) then
      inl (uvarint code ++ uvarint length ++ take (Z.to_nat length) digest)
    else inr "multihash length inconsistent"
  else inr "unknown multihash code".

End mh.

Module cid.

Definition DagCBOR : Z := 0x71.

(** A content identifier, as its binary form. *)
Definition Cid : Type := bytes.

(** [cid.NewCidV1(codec, mhash)]: version, codec tag, multihash. *)
Definition NewCidV1 (codec : Z) (mhash : bytes) : Cid :=
  mh.uvarint 1 ++ mh.uvarint codec ++ mhash.

End cid.

(** ** Package identities: the identity the log entries are signed with *)

Module identities.

Record IdentitySignatures : Type := mkIdentitySignatures {
  SigID : string;
  SigPublicKey : string
}.

(** Modelled from the spec: the declaration of [identities.Identity] is
    not among the sources; its fields are those the entry code and the
    legacy provider read. [PrivateKey] is [None] for an identity that
    carries no private key. *)
Record Identity : Type := mkIdentity {
  ID : string;
  PublicKey : ecdsa.PublicKey;
  PrivateKey : option ecdsa.PrivateKey;
  Signatures : IdentitySignatures;
  Identity_ : string;
  Type_ : string
}.

(** Modelled from the spec: [PublicKeyHex], the hex-encoded public key,
    the coordinates [X] and [Y] one after the other. *)
Definition PublicKeyHex (i : Identity) : string :=
  hex.EncodeToString (big.Bytes (PublicKey i).1 ++ big.Bytes (PublicKey i).2).

(** Modelled from the spec: the signature wire format, hex(r) followed
    by hex(s), each on the 32 bytes of the curve. *)
Definition encode_signature (r s : Z) : string :=
  hex.EncodeToString (big.be_bytes 32 r)
  +:+ hex.EncodeToString (big.be_bytes 32 s).

(** Modelled from the spec: [Identity.Sign(data)] fails if the identity
    carries no private key; otherwise it signs the SHA-256 digest of the
    data and returns the signature in wire format. *)
Definition Sign (rnd : option Z) (i : Identity) (data : bytes)
  : result string :=
  match PrivateKey i with
  | None => ("", Some "private signing key not found for identity")
  | Some priv =>
      match ecdsa.Sign rnd priv (sha256.Sum256 data) with
      | inr err => ("", Some err)
      | inl (r, s) => (encode_signature r s, None)
      end
  end.

End identities.

(** ** Package provider_registry *)

Module provider_registry.

(** Modelled from the spec: the provider capability the entry code
    dispatches to; the interface declaration is not among the sources. *)
Record Provider : Type := mkProvider {
  Type_ : string;
  VerifyIdentityWithEntry :
    identities.Identity -> bytes -> string -> result bool
}.

(** Modelled from the spec: the process-wide mapping from provider-type
    name to provider, passed explicitly. *)
Abbreviation registry := (gmap string Provider).

(** Modelled from the spec: [Register(provider)] inserts under
    [provider.Type()]. *)
Definition RegisterIdentityProvider (p : Provider) (reg : registry)
  : registry := <[Type_ p := p]> reg.

(** Modelled from the spec: [Get(type)] returns the provider or a
    not-found error. *)
Definition GetIdentityProvider (reg : registry) (type : string)
  : Provider + error :=
  match reg !! type with
  | Some p => inl p
  | None => inr ("identity provider not found: " +:+ type)
  end.

End provider_registry.

(** ** Package providers: the legacy provider (PublicKeyIdentityProvider) *)

Module legacy_provider.

Definition Type_ : string := "publickey".

(** [VerifyIdentityWithEntry]: digest the data, cut the signature in two
    halves by length, read each half as a base-16 integer, verify. *)
Definition VerifyIdentityWithEntry
    (identity : identities.Identity) (data : bytes) (signature : string)
  : result bool :=
  let hash := sha256.Sum256 data in
  let sigLen := (String.length signature / 2)%nat in
  match big.SetString (slice_to sigLen signature) 16 with
  | None => (false, Some "invalid signature format")
  | Some r =>
      match big.SetString (slice_from sigLen signature) 16 with
      | None => (false, Some "invalid signature format")
      | Some s =>
          (ecdsa.Verify (identities.PublicKey identity) hash r s, None)
      end
  end.

(** [GetID]: the public key in hex. *)
Definition GetID (identity : identities.Identity) : result string :=
  (identities.PublicKeyHex identity, None).

(** [SignIdentity]: sign the SHA-256 digest of the data with the
    identity's private key; the signature is the hex of [r.Bytes()]
    followed by the hex of [s.Bytes()]. The private key is a struct
    field; [None] stands for its zero value, with which the signer
    cannot sign. *)
Definition SignIdentity (rnd : option Z) (data : string)
    (identity : identities.Identity) : result string :=
  let hash := sha256.Sum256 (bytes_of_string data) in
  match identities.PrivateKey identity with
  | None => ("", Some "ecdsa: invalid private key")
  | Some priv =>
      match ecdsa.Sign rnd priv hash with
      | inr err => ("", Some err)
      | inl (r, s) =>
          (hex.EncodeToString (big.Bytes r)
           +:+ hex.EncodeToString (big.Bytes s), None)
      end
  end.

(** [verifyECDSASignature]: a signature of exactly 64 bytes, [r] in the
    first 32 and [s] in the last 32. *)
Definition verifyECDSASignature (publicKey : ecdsa.PublicKey)
    (dataHash signature : bytes) : result bool :=
  if negb (Nat.eqb (length signature) 64) then
    (false, Some "invalid signature length")
  else
    (ecdsa.Verify publicKey dataHash
       (big.SetBytes (take 32 signature)) (big.SetBytes (drop 32 signature)),
     None).

(** [VerifyIdentity]: the signature in [Signatures.PublicKey], over the
    id followed by [Signatures.ID]. *)
Definition VerifyIdentity (identity : identities.Identity) : result bool :=
  let data :=
    identities.ID identity
    +:+ identities.SigID (identities.Signatures identity) in
  match hex.DecodeString
          (identities.SigPublicKey (identities.Signatures identity)) with
  | None => (false, Some "encoding/hex: invalid hexadecimal string")
  | Some signatureBytes =>
      verifyECDSASignature (identities.PublicKey identity)
        (sha256.Sum256 (bytes_of_string data)) signatureBytes
  end.

Definition NewPublicKeyIdentityProvider : provider_registry.Provider :=
  provider_registry.mkProvider Type_ VerifyIdentityWithEntry.

End legacy_provider.

(** ** Package oplog: entry.go *)

Module oplog.

Module clock.
(** Modelled from the spec: the logical clock [{id, time}] of an
    entry; its declaration is not among the sources, the field names
    are those of the schema in [Encode]. *)
Record Clock : Type := mkClock {
  ID : string;
  Time : Z
}.
End clock.

Record Entry : Type := mkEntry {
  ID : string;
  Payload : string;
  Next : list string;
  Refs : list string;
  Clock : clock.Clock;
  V : Z;
  Key : string;
  Identity : string;
  Signature : string
}.

(** An [Entry] (embedded), its canonical bytes and its identifier. *)
Record EncodedEntry : Type := mkEncodedEntry {
  EncodedEntry_Entry : Entry;
  Bytes : bytes;
  CID : cid.Cid
}.

(** The fields of the map representation of an entry under the schema
    of [Encode], in the order the schema declares them. *)
Definition entry_fields (entry : Entry) : list (string * node) :=
  [ ("ID", NString (ID entry));
    ("Payload", NString (Payload entry));
    ("Next", NList (map NString (Next entry)));
    ("Refs", NList (map NString (Refs entry)));
    ("Clock", NMap [ ("id", NString (clock.ID (Clock entry)));
                     ("time", NInt (clock.Time (Clock entry))) ]);
    ("V", NInt (V entry));
    ("Key", NString (Key entry));
    ("Identity", NString (Identity entry));
    ("Signature", NString (Signature entry)) ].

(** [bindnode.Wrap(&entry, schemaType).Representation()]. *)
Definition entry_node (entry : Entry) : node := NMap (entry_fields entry).

(** The body of [Encode] once the node is bound: the DAG-CBOR bytes of
    the node and the CIDv1 of their SHA-256 multihash. An error of the
    encoder or of the hash is a panic. *)
Definition encode_bound (entry : Entry) (n : node) : outcome EncodedEntry :=
  match dagcbor.Encode n with
  | inr err => Panics err
  | inl buf =>
      match mh.Sum buf mh.SHA2_256 (-1) with
      | inr err => Panics err
      | inl hash =>
          Returns (mkEncodedEntry entry buf (cid.NewCidV1 cid.DagCBOR hash))
      end
  end.

(** [Encode]. The schema is a constant of the function and loads. *)
Definition Encode (entry : Entry) : outcome EncodedEntry :=
  encode_bound entry (entry_node entry).

Definition set_Signature (signature : string) (e : Entry) : Entry :=
  mkEntry (ID e) (Payload e) (Next e) (Refs e) (Clock e) (V e) (Key e)
    (Identity e) signature.

(** [NewEntry]. The identity is a pointer: [None] is [nil]. [rnd] is
    the outcome of the random read made while signing. *)
Definition NewEntry (identity : option identities.Identity)
    (rnd : option Z) (id payload : string) (clock : clock.Clock)
  : outcome EncodedEntry :=
  match identity with
  | None => Panics "invalid memory address or nil pointer dereference"
  | Some i =>
      let entry :=
        mkEntry id payload [] [] clock 2
          (identities.PublicKeyHex i) (identities.Identity_ i) "" in
      encodedEntry ← Encode entry;
      match identities.Sign rnd i (Bytes encodedEntry) with
      | (_, Some err) => Panics err
      | (signature, None) =>
          Returns (mkEncodedEntry
                     (set_Signature signature (EncodedEntry_Entry encodedEntry))
                     (Bytes encodedEntry) (CID encodedEntry))
      end
  end.

(** [VerifyEntrySignature], with the provider registry passed
    explicitly. *)
Definition VerifyEntrySignature (reg : provider_registry.registry)
    (identity : option identities.Identity) (entry : EncodedEntry)
  : outcome bool :=
  match identity with
  | None => Panics "invalid memory address or nil pointer dereference"
  | Some i =>
      match provider_registry.GetIdentityProvider reg (identities.Type_ i) with
      | inr _ => Returns false
      | inl provider =>
          match provider_registry.VerifyIdentityWithEntry provider i
                  (Bytes entry) (Signature (EncodedEntry_Entry entry)) with
          | (_, Some _) => Returns false
          | (valid, None) => Returns valid
          end
      end
  end.

End oplog.

(** ** Package identitytypes *)

Module identitytypes.

(** Modelled from the spec: the declaration of [identitytypes.Identity]
    is not among the sources; the fields are those its test and the
    public-key provider set. [PrivateKey] is a pointer, [None] for
    [nil]. *)
Record Identity : Type := mkIdentity {
  ID : string;
  PublicKey : string;
  PrivateKey : option ecdsa.PrivateKey;
  Signatures : gmap string string;
  Type_ : string;
  Hash : string;
  Bytes : bytes
}.

(** Modelled from the spec: [IsIdentity], field completeness: every
    field but the private key is present, and both self-signatures
    are. *)
Definition IsIdentity (i : Identity) : bool :=
  negb (String.eqb (ID i) "")
  && negb (String.eqb (PublicKey i) "")
  && bool_decide (is_Some (Signatures i !! "id"))
  && bool_decide (is_Some (Signatures i !! "publicKey"))
  && negb (String.eqb (Type_ i) "")
  && negb (String.eqb (Hash i) "")
  && negb (Nat.eqb (length (Bytes i)) 0).

(** Modelled from the spec: the canonical map of an identity, every
    field except the private key (and the derived hash and bytes). *)
Definition identity_node (i : Identity) : node :=
  NMap [ ("id", NString (ID i));
         ("publicKey", NString (PublicKey i));
         ("signatures",
           NMap (map (fun kv => (kv.1, NString kv.2))
                   (map_to_list (Signatures i))));
         ("type", NString (Type_ i)) ].

(** Modelled from the spec: [EncodeIdentity], the canonical bytes and
    the content identifier (codec tag and SHA-256 digest of the bytes),
    the identifier in base-16 multibase text. *)
Definition EncodeIdentity (i : Identity) : result (string * bytes) :=
  match dagcbor.Encode (identity_node i) with
  | inr err => (("", []), Some err)
  | inl buf =>
      match mh.Sum buf mh.SHA2_256 (-1) with
      | inr err => (("", []), Some err)
      | inl hash =>
          (("f" +:+ hex.EncodeToString (cid.NewCidV1 cid.DagCBOR hash), buf),
           None)
      end
  end.

(** Modelled from the spec: [Identity.Verify(signature, data)]: digest
    the data, decode the signature and split it at the fixed width of
    the curve, verify against the public key (its coordinates split at
    the same width). *)
Definition Verify (i : Identity) (signature : string) (data : bytes) : bool :=
  match hex.DecodeString signature, hex.DecodeString (PublicKey i) with
  | Some sig, Some pub =>
      if Nat.eqb (length sig) 64 && Nat.eqb (length pub) 64 then
        ecdsa.Verify
          (big.SetBytes (take 32 pub), big.SetBytes (drop 32 pub))
          (sha256.Sum256 data)
          (big.SetBytes (take 32 sig)) (big.SetBytes (drop 32 sig))
      else false
  | _, _ => false
  end.

End identitytypes.

(** ** Package providers: the public-key provider (PublicKeyProvider) *)

Module providers.

Definition Type_ : string := "publickey".

(** [createHardcodedKeyPair]: the fixed private scalar and the public
    point it determines. *)
Definition createHardcodedKeyPair : ecdsa.PrivateKey :=
  let d := 0x5e5d9e0a44685aee2282a44d2d3e9a1b in
  ecdsa.mkPrivateKey (elliptic.ScalarBaseMult (big.SetBytes (big.Bytes d))) d.

(** [signData]: sign the SHA-256 digest of the data; the signature is
    the hex of [r.Bytes()] followed by the hex of [s.Bytes()]. *)
Definition signData (rnd : option Z) (privateKey : ecdsa.PrivateKey)
    (data : bytes) : result string :=
  let hash := sha256.Sum256 data in
  match ecdsa.Sign rnd privateKey hash with
  | inr err => ("", Some err)
  | inl (r, s) =>
      (hex.EncodeToString (big.Bytes r) +:+ hex.EncodeToString (big.Bytes s),
       None)
  end.

(** [PublicKeyProvider.GetId]: the public key of the fixed key pair, in
    hex, whatever the id. *)
Definition GetId (id : string) : result string :=
  let privateKey := createHardcodedKeyPair in
  (hex.EncodeToString
     (big.Bytes (ecdsa.Public privateKey).1
      ++ big.Bytes (ecdsa.Public privateKey).2), None).

(** [PublicKeyProvider.Verify]. *)
Definition Verify (identity : identitytypes.Identity) (signature : string)
    (data : bytes) : bool :=
  identitytypes.Verify identity signature data.

(** [PublicKeyProvider.CreateIdentity]. The two signatures take the
    first and the second read of the random reader. The identity
    returned is a pointer: [None] is [nil]. *)
Definition CreateIdentity (rand : Reader) (id : string)
  : result (option identitytypes.Identity) :=
  let privateKey := createHardcodedKeyPair in
  let publicKey :=
    hex.EncodeToString
      (big.Bytes (ecdsa.Public privateKey).1
       ++ big.Bytes (ecdsa.Public privateKey).2) in
  match signData (rand 0%nat) privateKey (bytes_of_string id) with
  | (_, Some err) => (None, Some err)
  | (idSignature, None) =>
      match signData (rand 1%nat) privateKey (bytes_of_string publicKey) with
      | (_, Some err) => (None, Some err)
      | (publicKeySignature, None) =>
          let identity :=
            identitytypes.mkIdentity id publicKey (Some privateKey)
              (<["id" := idSignature]>
                 (<["publicKey" := publicKeySignature]> ∅))
              Type_ "" [] in
          match identitytypes.EncodeIdentity identity with
          | (_, Some err) => (None, Some err)
          | ((hash, bytes), None) =>
              (Some (identitytypes.mkIdentity id publicKey (Some privateKey)
                       (identitytypes.Signatures identity) Type_ hash bytes),
               None)
          end
      end
  end.

(** [PublicKeyProvider.VerifyIdentity]. *)
Definition VerifyIdentity (identity : identitytypes.Identity) : result bool :=
  if negb (identitytypes.IsIdentity identity) then
    (false, Some "identity is missing required fields")
  else
    match identitytypes.Signatures identity !! "id" with
    | None => (false, Some "invalid or missing ID signature")
    | Some idSignature =>
        if negb (Verify identity idSignature
                   (bytes_of_string (identitytypes.ID identity))) then
          (false, Some "invalid or missing ID signature")
        else
          match identitytypes.Signatures identity !! "publicKey" with
          | None => (false, Some "invalid or missing public key signature")
          | Some publicKeySignature =>
              if negb (Verify identity publicKeySignature
                         (bytes_of_string (identitytypes.PublicKey identity)))
              then (false, Some "invalid or missing public key signature")
              else (true, None)
          end
    end.

End providers.

(** ** Package identities: the identity manager (Identities) *)

Module manager.

(** Modelled from the spec: the provider capability the manager is
    bound to; the interface declaration is not among the sources. A
    method returns what a Go method of that signature can return: any
    value together with any error. *)
Record Provider : Type := mkProvider {
  Provider_Type : string;
  Provider_CreateIdentity :
    Reader -> string -> result (option identitytypes.Identity);
  Provider_VerifyIdentity : identitytypes.Identity -> result bool
}.

(** [providers.NewPublicKeyProvider()]. *)
Definition NewPublicKeyProvider : Provider :=
  mkProvider providers.Type_ providers.CreateIdentity providers.VerifyIdentity.

Record Identities : Type := mkIdentities {
  storage : gmap string identitytypes.Identity;
  provider : Provider
}.

(** Modelled from the spec: [RegisterProvider] and [GetProvider], the
    registry of the manager's providers, passed explicitly. *)
Definition RegisterProvider (p : Provider) (reg : gmap string Provider)
  : gmap string Provider := <[Provider_Type p := p]> reg.

Definition GetProvider (reg : gmap string Provider) (providerType : string)
  : Provider + error :=
  match reg !! providerType with
  | Some p => inl p
  | None => inr ("provider not found: " +:+ providerType)
  end.

(** The registry after the package's [init]. *)
Definition init_registry : gmap string Provider :=
  RegisterProvider NewPublicKeyProvider ∅.

(** [NewIdentities]. *)
Definition NewIdentities (reg : gmap string Provider) (providerType : string)
  : result (option Identities) :=
  match GetProvider reg providerType with
  | inr err => (None, Some err)
  | inl p => (Some (mkIdentities ∅ p), None)
  end.

(** [Identities.VerifyIdentity]: the provider's boolean, its error
    dropped. *)
Definition VerifyIdentity (ids : Identities)
    (identity : identitytypes.Identity) : bool :=
  let '(verified, _) := Provider_VerifyIdentity (provider ids) identity in
  verified.

(** [Identities.CreateIdentity]. The manager is updated in place: the
    result holds the manager after the call. The storage maps a hash to
    a pointer; the model keeps the identity itself, nothing in the
    package writes through these pointers. [IsIdentity] takes a
    pointer, and the sources do not show what it does with [nil]:
    [is_identity_nil] is its outcome there. After [IsIdentity(nil)]
    returned [true], reading [identity.Hash] panics. *)
Definition CreateIdentity (is_identity_nil : outcome bool) (rand : Reader)
    (ids : Identities) (id : string)
  : outcome (Identities * result (option identitytypes.Identity)) :=
  match Provider_CreateIdentity (provider ids) rand id with
  | (_, Some err) => Returns (ids, (None, Some err))
  | (None, None) =>
      valid ← is_identity_nil;
      if negb valid then
        Returns (ids, (None, Some "invalid identity created"))
      else Panics "invalid memory address or nil pointer dereference"
  | (Some identity, None) =>
      if negb (identitytypes.IsIdentity identity) then
        Returns (ids, (None, Some "invalid identity created"))
      else
        Returns
          (mkIdentities
             (<[identitytypes.Hash identity := identity]> (storage ids))
             (provider ids),
           (Some identity, None))
  end.

End manager.

(** ** Specification predicates *)

(** A hexadecimal digit, in either case. *)
Definition is_hex_digit (c : ascii) : bool :=
  existsb (Ascii.eqb c) (String.list_ascii_of_string "0123456789abcdefABCDEF").

(** A hexadecimal number: an optional sign, then one digit or more. *)
Definition hex_number (s : string) : bool :=
  let body :=
    match s with
    | String c rest =>
        if Ascii.eqb c "+"%char || Ascii.eqb c "-"%char then rest else s
    | EmptyString => s
    end in
  negb (String.eqb body "")
  && forallb is_hex_digit (String.list_ascii_of_string body).

(** A signature string is well formed when each of its two halves is a
    hexadecimal number. *)
Definition wellformed_signature (signature : string) : bool :=
  let sigLen := (String.length signature / 2)%nat in
  hex_number (slice_to sigLen signature)
  && hex_number (slice_from sigLen signature).

(** The numbers [r] and [s] a well-formed signature string stands for. *)
Definition signature_numbers (signature : string) : option (Z * Z) :=
  let sigLen := (String.length signature / 2)%nat in
  match big.SetString (slice_to sigLen signature) 16,
        big.SetString (slice_from sigLen signature) 16 with
  | Some r, Some s => Some (r, s)
  | _, _ => None
  end.

(** ** Concrete inputs *)

(** Nonces as the random reader may yield them. [nonce_short_r] is one
    for which the [r] of the signature has a leading zero byte. *)
Definition nonce_0 : Z :=
  0xa8f5132cc64d5b484e02bbd9278204ad223ead27a02d5a1bbc53801317e94d75.
Definition nonce_1 : Z :=
  0x9e3f156324d42f0ea4b6f4fce81d56fbd64a2143a3fdd60a130d9c90e5b4d688.
Definition nonce_short_r : Z :=
  0x55c883de675b00c87cf9c84c25ec6f00edf40298ef3ed77fe06985ae6d81796f.

Definition reader_of (k0 k1 : Z) : Reader :=
  fun n => match n with O => Some k0 | _ => Some k1 end.

(** A legacy identity that owns the fixed key pair, one without private
    key, and the registry holding the legacy provider. *)
Definition alice : identities.Identity :=
  identities.mkIdentity "alice"
    (ecdsa.Public providers.createHardcodedKeyPair)
    (Some providers.createHardcodedKeyPair)
    (identities.mkIdentitySignatures "" "") "alice-hash" "publickey".

Definition alice_public : identities.Identity :=
  identities.mkIdentity "alice"
    (ecdsa.Public providers.createHardcodedKeyPair) None
    (identities.mkIdentitySignatures "" "") "alice-hash" "publickey".

Definition legacy_registry : provider_registry.registry :=
  provider_registry.RegisterIdentityProvider
    legacy_provider.NewPublicKeyIdentityProvider ∅.

Definition clock_1 : oplog.clock.Clock := oplog.clock.mkClock "alice" 1.

Definition set_Payload (payload : string) (e : oplog.EncodedEntry)
  : oplog.EncodedEntry :=
  let en := oplog.EncodedEntry_Entry e in
  oplog.mkEncodedEntry
    (oplog.mkEntry (oplog.ID en) payload (oplog.Next en) (oplog.Refs en)
       (oplog.Clock en) (oplog.V en) (oplog.Key en) (oplog.Identity en)
       (oplog.Signature en))
    (oplog.Bytes e) (oplog.CID e).

Definition set_Key (key : string) (e : oplog.EncodedEntry)
  : oplog.EncodedEntry :=
  let en := oplog.EncodedEntry_Entry e in
  oplog.mkEncodedEntry
    (oplog.mkEntry (oplog.ID en) (oplog.Payload en) (oplog.Next en)
       (oplog.Refs en) (oplog.Clock en) (oplog.V en) key (oplog.Identity en)
       (oplog.Signature en))
    (oplog.Bytes e) (oplog.CID e).

Definition set_Clock_Time (time : Z) (e : oplog.EncodedEntry)
  : oplog.EncodedEntry :=
  let en := oplog.EncodedEntry_Entry e in
  oplog.mkEncodedEntry
    (oplog.mkEntry (oplog.ID en) (oplog.Payload en) (oplog.Next en)
       (oplog.Refs en)
       (oplog.clock.mkClock (oplog.clock.ID (oplog.Clock en)) time)
       (oplog.V en) (oplog.Key en) (oplog.Identity en) (oplog.Signature en))
    (oplog.Bytes e) (oplog.CID e).

(** An entry, and an identity of a provider type nobody registered. *)
Definition sample_entry : oplog.Entry :=
  oplog.mkEntry "log-1" "hello" ["zdpuAm"] [] clock_1 2 "04e4c2" "alice-hash"
    "3045".

Definition carol : identities.Identity :=
  identities.mkIdentity "carol" (ecdsa.Public rfc6979_key) None
    (identities.mkIdentitySignatures "" "") "carol-hash" "orbitdb".

(** The zero value of [identitytypes.Identity]. *)
Definition empty_identity : identitytypes.Identity :=
  identitytypes.mkIdentity "" "" None ∅ "" "" [].

(** A provider whose [VerifyIdentity] returns [true] together with an
    error. *)
Definition lax_provider : manager.Provider :=
  manager.mkProvider "lax"
    (fun _ _ => (None, Some "not supported"))
    (fun _ => (true, Some "verification backend unavailable")).

(** ** Further definitions for the properties of the code *)

(** The signature string [signData] and [SignIdentity] build from the two
    numbers of an ECDSA signature. *)
Definition wire_signature (r s : Z) : string :=
  hex.EncodeToString (big.Bytes r) +:+ hex.EncodeToString (big.Bytes s).






(** [strings.ToUpper] on ASCII text. *)
Definition upper_char (c : ascii) : ascii :=
  let k := N_of_ascii c in
  if ((97 <=? k) && (k <=? 122))%N then ascii_of_N (k - 32) else c.

Fixpoint ToUpper (s : string) : string :=
  match s with
  | EmptyString => EmptyString
  | String c rest => String (upper_char c) (ToUpper rest)
  end.

(** The storage of a manager is consistent when every identity is kept
    under its own hash and has passed [IsIdentity]. *)
Definition storage_ok (ids : manager.Identities) : Prop :=
  forall (hash : string) (identity : identitytypes.Identity),
    manager.storage ids !! hash = Some identity ->
    identitytypes.Hash identity = hash
    /\ identitytypes.IsIdentity identity = true.

(** The managers a program can reach: a manager as [NewIdentities] makes
    it, bound to the provider [p], then any number of calls of
    [CreateIdentity] that return. *)
Inductive reachable (p : manager.Provider) : manager.Identities -> Prop :=
| reachable_new : reachable p (manager.mkIdentities ∅ p)
| reachable_create (ids ids' : manager.Identities)
    (is_identity_nil : outcome bool) (rand : Reader) (id : string)
    (res : result (option identitytypes.Identity)) :
    reachable p ids ->
    manager.CreateIdentity is_identity_nil rand ids id = Returns (ids', res) ->
    reachable p ids'.

(** * Properties *)

(** ** The library models against published test vectors *)

Example sha256_abc :
  hex.EncodeToString (sha256.Sum256 (bytes_of_string "abc"))
  = "ba7816bf8f01cfea414140de5dae2223b00361a396177a9cb410ff61f20015ad".
Proof. vm_compute. reflexivity. Qed.

Example sha256_empty :
  hex.EncodeToString (sha256.Sum256 [])
  = "e3b0c44298fc1c149afbf4c8996fb92427ae41e4649b934ca495991b7852b855".
Proof. vm_compute. reflexivity. Qed.

Example sha256_two_blocks :
  hex.EncodeToString (sha256.Sum256 (bytes_of_string
    "abcdbcdecdefdefgefghfghighijhijkijkljklmklmnlmnomnopnopq"))
  = "248d6a61d20638b8e5c026930c3e6039a33ce45964ff2167f6ecedd419db06c1".
Proof. vm_compute. reflexivity. Qed.

Example rfc6979_public :
  ecdsa.Public rfc6979_key
  = (0x60FED4BA255A9D31C961EB74C6356D68C049B8923B61FA6CE669622E60F29FB6,
     0x7903FE1008B8BC99A41AE9E95628BC64F2F1B20C2D7E9F5177A3C294D4462299).
Proof. vm_compute. reflexivity. Qed.

Example rfc6979_sign :
  ecdsa.Sign
    (Some 0xA6E3C57DD01ABE90086538398355DD4C3B17AA873382B0F24D6129493D8AAD60)
    rfc6979_key (sha256.Sum256 (bytes_of_string "sample"))
  = inl (0xEFD48B2AACB6A8FD1140DD9CD45E81D69D2C877B56AAF991C34D0EA84EAF3716,
         0xF7CB1C942D657C41D436C7A1B6E29F65F3E900DBB9AFF4064DC4AB2F843ACDA8).
Proof. vm_compute. reflexivity. Qed.

Example rfc6979_verify :
  ecdsa.Verify (ecdsa.Public rfc6979_key)
    (sha256.Sum256 (bytes_of_string "sample"))
    0xEFD48B2AACB6A8FD1140DD9CD45E81D69D2C877B56AAF991C34D0EA84EAF3716
    0xF7CB1C942D657C41D436C7A1B6E29F65F3E900DBB9AFF4064DC4AB2F843ACDA8
  = true.
Proof. vm_compute. reflexivity. Qed.

Example dagcbor_sample :
  hex.EncodeToString
    (dagcbor.encode_node
       (NMap [("time", NInt 1); ("id", NString "alice");
              ("refs", NList [NString "x"; NInt (-500)])]))
  = "a362696465616c69636564726566738261783901f36474696d6501".
Proof. vm_compute. reflexivity. Qed.

(** ** The map-key order of DAG-CBOR *)

Section key_order.

Lemma ltb_lt (a b : string) :
  String.ltb a b = true <-> OrderedTypeEx.String_as_OT.lt a b.
Proof.
  unfold String.ltb. rewrite <- OrderedTypeEx.String_as_OT.cmp_lt.
  unfold OrderedTypeEx.String_as_OT.cmp.
  destruct (String.compare a b); split; congruence.
Qed.

Lemma ltb_irrefl (a : string) : String.ltb a a = false.
Proof.
  destruct (String.ltb a a) eqn:E; [|done].
  apply ltb_lt, OrderedTypeEx.String_as_OT.lt_not_eq in E. by destruct E.
Qed.

Lemma ltb_trichotomy (a b : string) :
  String.ltb b a = false -> a = b \/ String.ltb a b = true.
Proof.
  unfold String.ltb. rewrite (String.compare_antisym a b).
  destruct (String.compare b a) eqn:E; simpl; intros; try done; auto.
  left. symmetry. by apply String.compare_eq_iff.
Qed.

Lemma ltb_trans (a b c : string) :
  String.ltb a b = true -> String.ltb b c = true -> String.ltb a c = true.
Proof.
  rewrite !ltb_lt. apply OrderedTypeEx.String_as_OT.lt_trans.
Qed.

Lemma key_less_false_inv (a b : string) :
  dagcbor.key_less b a = false ->
  (String.length a < String.length b)%nat
  \/ (String.length a = String.length b /\ String.ltb b a = false).
Proof.
  unfold dagcbor.key_less.
  destruct (Nat.eqb_spec (String.length b) (String.length a)) as [E|E].
  - intros H. right. by split.
  - intros H%Nat.ltb_ge. left. lia.
Qed.

Lemma key_le_total (a b : string) :
  dagcbor.key_less b a = false \/ dagcbor.key_less a b = false.
Proof.
  unfold dagcbor.key_less.
  rewrite (Nat.eqb_sym (String.length a) (String.length b)).
  destruct (Nat.eqb_spec (String.length b) (String.length a)) as [E|E].
  - destruct (String.ltb b a) eqn:Hba; [|by left]. right.
    destruct (String.ltb a b) eqn:Hab; [|done].
    pose proof (ltb_trans _ _ _ Hab Hba) as H. by rewrite ltb_irrefl in H.
  - destruct (Nat.ltb_spec (String.length b) (String.length a)); [|by left].
    right. apply Nat.ltb_ge. lia.
Qed.

Lemma key_le_antisym (a b : string) :
  dagcbor.key_less b a = false -> dagcbor.key_less a b = false -> a = b.
Proof.
  intros [?|[E1 H1]]%key_less_false_inv [?|[E2 H2]]%key_less_false_inv;
    try lia.
  destruct (ltb_trichotomy _ _ H1) as [?|H]; [done|congruence].
Qed.

Lemma key_le_trans (a b c : string) :
  dagcbor.key_less b a = false -> dagcbor.key_less c b = false ->
  dagcbor.key_less c a = false.
Proof.
  intros Hab Hbc.
  apply key_less_false_inv in Hab as [Hab|[Eab Hab]];
    apply key_less_false_inv in Hbc as [Hbc|[Ebc Hbc]];
    unfold dagcbor.key_less;
    destruct (Nat.eqb_spec (String.length c) (String.length a)) as [E|E];
    try lia; try (apply Nat.ltb_ge; lia).
  destruct (String.ltb c a) eqn:Hca; [|done].
  destruct (ltb_trichotomy _ _ Hab) as [->|Hlt]; [congruence|].
  pose proof (ltb_trans _ _ _ Hca Hlt). congruence.
Qed.

Context {A : Type}.

#[global] Instance entry_le_total : Total (@dagcbor.entry_le A).
Proof. intros a b. apply key_le_total. Qed.

#[global] Instance entry_le_trans : Transitive (@dagcbor.entry_le A).
Proof. intros a b c. apply key_le_trans. Qed.

Lemma NoDup_keys_inj (l : list (string * A)) (a b : string * A) :
  NoDup l.*1 -> a ∈ l -> b ∈ l -> a.1 = b.1 -> a = b.
Proof.
  induction l as [|x l IH]; intros Hnd Ha Hb Hk; [by inversion Ha|].
  rewrite fmap_cons in Hnd. apply NoDup_cons in Hnd as [Hx Hnd].
  apply elem_of_cons in Ha as [->|Ha]; apply elem_of_cons in Hb as [->|Hb];
    auto.
  - exfalso. apply Hx. rewrite Hk. by apply list_elem_of_fmap_2.
  - exfalso. apply Hx. rewrite <- Hk. by apply list_elem_of_fmap_2.
Qed.

(** Two sorted lists of entries with the same, pairwise distinct keys
    are the same list. *)
Lemma sorted_entries_unique (l1 l2 : list (string * A)) :
  StronglySorted dagcbor.entry_le l1 -> StronglySorted dagcbor.entry_le l2 ->
  NoDup l1.*1 -> l1 ≡ₚ l2 -> l1 = l2.
Proof.
  revert l2. induction l1 as [|x t1 IH]; intros l2 S1 S2 Hnd Hp.
  - by apply Permutation_nil in Hp.
  - destruct l2 as [|y t2]; [by apply Permutation_sym, Permutation_nil in Hp|].
    apply StronglySorted_inv in S1 as [S1 F1].
    apply StronglySorted_inv in S2 as [S2 F2].
    assert (x = y) as ->.
    { assert (Hx : x ∈ y :: t2) by (rewrite <- Hp; left).
      assert (Hy : y ∈ x :: t1) by (rewrite Hp; left).
      apply elem_of_cons in Hx as [?|Hx]; [done|].
      apply elem_of_cons in Hy as [?|Hy]; [done|].
      rewrite Forall_forall in F1, F2.
      apply (NoDup_keys_inj (x :: t1)); auto; [left|by right|].
      apply key_le_antisym.
      - exact (F1 y Hy).
      - exact (F2 x Hx). }
    f_equal. apply IH; auto.
    + rewrite fmap_cons in Hnd. by apply NoDup_cons in Hnd as [_ ?].
    + by apply Permutation_cons_inv in Hp.
Qed.

(** Sorting forgets the order the entries came in. *)
Lemma sort_entries_perm (l1 l2 : list (string * A)) :
  NoDup l1.*1 -> l1 ≡ₚ l2 ->
  dagcbor.sort_entries l1 = dagcbor.sort_entries l2.
Proof.
  intros Hnd Hp. unfold dagcbor.sort_entries.
  apply sorted_entries_unique.
  - apply StronglySorted_merge_sort; apply _.
  - apply StronglySorted_merge_sort; apply _.
  - by rewrite merge_sort_Permutation.
  - by rewrite !merge_sort_Permutation.
Qed.

End key_order.

(** The encoding of a map node does not depend on the order of its
    entries, provided the keys are pairwise distinct. *)
Lemma encode_map_perm (es es' : list (string * node)) :
  NoDup es.*1 -> es ≡ₚ es' ->
  dagcbor.encode_node (NMap es) = dagcbor.encode_node (NMap es').
Proof.
  intros Hnd Hp. simpl. f_equal.
  - by rewrite Hp.
  - f_equal. apply sort_entries_perm.
    + by rewrite <- list_fmap_compose.
    + by apply fmap_Permutation.
Qed.

(** ** Canonical encoding of entries *)

Lemma entry_fields_keys (entry : oplog.Entry) :
  (oplog.entry_fields entry).*1
  = ["ID"; "Payload"; "Next"; "Refs"; "Clock"; "V"; "Key"; "Identity";
     "Signature"].
Proof. reflexivity. Qed.

Lemma entry_fields_NoDup (entry : oplog.Entry) :
  NoDup (oplog.entry_fields entry).*1.
Proof. rewrite entry_fields_keys. apply (bool_decide_unpack _). by vm_compute. Qed.

(** [Encode] returns for every entry: neither the encoder nor the hash
    fails on an entry node. *)
Lemma Encode_returns (entry : oplog.Entry) :
  oplog.Encode entry
  = Returns
      (oplog.mkEncodedEntry entry
         (dagcbor.encode_node (oplog.entry_node entry))
         (cid.NewCidV1 cid.DagCBOR
            (mh.uvarint mh.SHA2_256 ++ mh.uvarint 32
             ++ sha256.Sum256 (dagcbor.encode_node (oplog.entry_node entry))))).
Proof. reflexivity. Qed.

(** C9. Canonical encoding is deterministic. Encoding equal entries gives
    the same outcome: [Encode] returns, with byte-identical bytes and the
    same content identifier; the outcome is the same when the fields of
    the entry reach the encoder in any other order; and the entry that
    comes back is the entry that went in. *)
Theorem Encode_deterministic
    (e1 e2 : oplog.Entry) (fields : list (string * node)) :
  e1 = e2 ->
  fields ≡ₚ oplog.entry_fields e2 ->
  exists ee : oplog.EncodedEntry,
    oplog.Encode e1 = Returns ee
    /\ oplog.Encode e2 = Returns ee
    /\ oplog.encode_bound e2 (NMap fields) = Returns ee
    /\ oplog.EncodedEntry_Entry ee = e1.
Proof.
  intros <- Hp. eexists. split; [apply Encode_returns|].
  split; [apply Encode_returns|]. split; [|reflexivity].
  unfold oplog.encode_bound, dagcbor.Encode, oplog.entry_node.
  rewrite (encode_map_perm (oplog.entry_fields e1) fields);
    [reflexivity|apply entry_fields_NoDup|by symmetry].
Qed.

Lemma Encode_deterministic_witness :
  rev (oplog.entry_fields sample_entry) ≡ₚ oplog.entry_fields sample_entry
  /\ exists ee : oplog.EncodedEntry,
       oplog.Encode sample_entry = Returns ee
       /\ oplog.encode_bound sample_entry
            (NMap (rev (oplog.entry_fields sample_entry))) = Returns ee
       /\ oplog.EncodedEntry_Entry ee = sample_entry.
Proof.
  split; [apply Permutation_sym, Permutation_rev|].
  destruct (Encode_deterministic sample_entry sample_entry
              (rev (oplog.entry_fields sample_entry)) eq_refl
              (Permutation_sym (Permutation_rev _)))
    as (ee & H1 & _ & H3 & H4).
  exists ee. auto.
Defined.

(** ** Verification of entries *)

(** C7. For an identity whose type is not registered, and any encoded
    entry, [VerifyEntrySignature] returns [false]; it does not panic. *)
Theorem VerifyEntrySignature_unregistered
    (reg : provider_registry.registry) (identity : identities.Identity)
    (entry : oplog.EncodedEntry) :
  reg !! identities.Type_ identity = None ->
  oplog.VerifyEntrySignature reg (Some identity) entry = Returns false.
Proof.
  intros Hreg. unfold oplog.VerifyEntrySignature,
    provider_registry.GetIdentityProvider. by rewrite Hreg.
Qed.

Lemma VerifyEntrySignature_unregistered_witness :
  legacy_registry !! identities.Type_ carol = None
  /\ oplog.VerifyEntrySignature legacy_registry (Some carol)
       (oplog.mkEncodedEntry sample_entry [] []) = Returns false.
Proof.
  split; [reflexivity|].
  apply (VerifyEntrySignature_unregistered legacy_registry carol).
  reflexivity.
Defined.

(** ** The identity manager *)

(** Every error path of the public-key provider's [VerifyIdentity]
    returns [false]. *)
Lemma PublicKeyProvider_VerifyIdentity_error
    (identity : identitytypes.Identity) :
  (providers.VerifyIdentity identity).2 <> None ->
  (providers.VerifyIdentity identity).1 = false.
Proof.
  unfold providers.VerifyIdentity.
  repeat (case_match; simpl; try done).
Qed.

(** C8, as the code has it. The manager's [VerifyIdentity] returns the
    boolean of the bound provider's [VerifyIdentity] and drops the error.
    Hence it returns [false] on a provider error whenever the provider
    returns [false] next to the error, which the public-key provider does
    on each of its error paths. *)
Theorem manager_VerifyIdentity_drops_error
    (ids : manager.Identities) (identity : identitytypes.Identity) :
  manager.VerifyIdentity ids identity
  = (manager.Provider_VerifyIdentity (manager.provider ids) identity).1
  /\ (manager.provider ids = manager.NewPublicKeyProvider ->
      (manager.Provider_VerifyIdentity (manager.provider ids) identity).2
      <> None ->
      manager.VerifyIdentity ids identity = false).
Proof.
  assert (H : manager.VerifyIdentity ids identity
    = (manager.Provider_VerifyIdentity (manager.provider ids) identity).1).
  { unfold manager.VerifyIdentity. by case_match. }
  split; [exact H|]. intros Hp Herr. rewrite H. rewrite Hp in *.
  by apply PublicKeyProvider_VerifyIdentity_error.
Qed.

(** C8, as the claim has it, fails for a provider that returns [true]
    together with an error: the manager returns [true]. *)
Lemma manager_VerifyIdentity_error_not_false :
  (manager.Provider_VerifyIdentity lax_provider empty_identity).2
  = Some "verification backend unavailable"
  /\ manager.VerifyIdentity (manager.mkIdentities ∅ lax_provider) empty_identity
     = true.
Proof. split; reflexivity. Qed.

Lemma manager_VerifyIdentity_drops_error_witness :
  let ids := manager.mkIdentities ∅ manager.NewPublicKeyProvider in
  manager.Provider_VerifyIdentity (manager.provider ids) empty_identity
  = (false, Some "identity is missing required fields")
  /\ manager.VerifyIdentity ids empty_identity = false.
Proof.
  intros ids. split; [reflexivity|].
  apply (manager_VerifyIdentity_drops_error ids empty_identity);
    [reflexivity|].
  vm_compute. discriminate.
Defined.

(** ** The public-key provider *)

(** The fixed key pair, computed. *)
Lemma hardcoded_key_pair :
  providers.createHardcodedKeyPair
  = ecdsa.mkPrivateKey
      (0xe4c21ec733aba051627b303fec1fa68be20750b7b0fe006dd886e7197ade2076,
       0x75df14abfef110d7208acdae475c66df1c4d828d6fd5eb0552e2099b2a8b4c56)
      0x5e5d9e0a44685aee2282a44d2d3e9a1b.
Proof. vm_compute. reflexivity. Qed.

(** Replace the fixed key pair by its value, also inside the concrete
    identities, before computing. *)
Ltac fixed_key :=
  unfold alice, alice_public, providers.CreateIdentity;
  rewrite ?hardcoded_key_pair.

(** The public key of the fixed key pair, in hex. *)
Lemma hardcoded_public_key_hex :
  hex.EncodeToString
    (big.Bytes (ecdsa.Public providers.createHardcodedKeyPair).1
     ++ big.Bytes (ecdsa.Public providers.createHardcodedKeyPair).2)
  = "e4c21ec733aba051627b303fec1fa68be20750b7b0fe006dd886e7197ade207675df14abfef110d7208acdae475c66df1c4d828d6fd5eb0552e2099b2a8b4c56".
Proof. fixed_key. vm_compute. reflexivity. Qed.

(** What [CreateIdentity] puts into the identity it returns: the id, the
    fixed key pair, and the two self-signatures, one over the raw id
    string and one over the hex-encoded public key. *)
Lemma CreateIdentity_inv (rand : Reader) (id : string)
    (identity : identitytypes.Identity) :
  providers.CreateIdentity rand id = (Some identity, None) ->
  identitytypes.ID identity = id
  /\ identitytypes.PublicKey identity
     = hex.EncodeToString
         (big.Bytes (ecdsa.Public providers.createHardcodedKeyPair).1
          ++ big.Bytes (ecdsa.Public providers.createHardcodedKeyPair).2)
  /\ identitytypes.PrivateKey identity = Some providers.createHardcodedKeyPair
  /\ identitytypes.Type_ identity = "publickey"
  /\ identitytypes.Signatures identity !! "id"
     = Some (providers.signData (rand 0%nat) providers.createHardcodedKeyPair
               (bytes_of_string id)).1
  /\ identitytypes.Signatures identity !! "publicKey"
     = Some (providers.signData (rand 1%nat) providers.createHardcodedKeyPair
               (bytes_of_string (identitytypes.PublicKey identity))).1.
Proof.
  unfold providers.CreateIdentity.
  generalize providers.createHardcodedKeyPair. intros priv.
  destruct (providers.signData (rand 0%nat) _ _) as [sig1 [e1|]];
    [discriminate|].
  destruct (providers.signData (rand 1%nat) _ _) as [sig2 [e2|]] eqn:E2;
    [discriminate|].
  destruct (identitytypes.EncodeIdentity _) as [[hash bs] [e3|]];
    [discriminate|].
  intros [= <-]. cbn [identitytypes.ID identitytypes.PublicKey
    identitytypes.PrivateKey identitytypes.Type_ identitytypes.Signatures].
  rewrite E2. repeat split; reflexivity.
Qed.

(** C10. [CreateIdentity] takes its key pair from the fixed private
    scalar, not from fresh randomness: the identities of any two calls,
    whatever the id strings and the outcomes of the random reader, carry
    the same public-key hex string and the same private key. *)
Theorem CreateIdentity_same_key_pair
    (rand1 rand2 : Reader) (id1 id2 : string)
    (identity1 identity2 : identitytypes.Identity) :
  providers.CreateIdentity rand1 id1 = (Some identity1, None) ->
  providers.CreateIdentity rand2 id2 = (Some identity2, None) ->
  identitytypes.PublicKey identity1 = identitytypes.PublicKey identity2
  /\ identitytypes.PrivateKey identity1 = identitytypes.PrivateKey identity2
  /\ identitytypes.PublicKey identity1
     = "e4c21ec733aba051627b303fec1fa68be20750b7b0fe006dd886e7197ade207675df14abfef110d7208acdae475c66df1c4d828d6fd5eb0552e2099b2a8b4c56"
  /\ ecdsa.D <$> identitytypes.PrivateKey identity1
     = Some 0x5e5d9e0a44685aee2282a44d2d3e9a1b.
Proof.
  intros (_ & Hk1 & Hp1 & _)%CreateIdentity_inv
         (_ & Hk2 & Hp2 & _)%CreateIdentity_inv.
  rewrite Hk1, Hk2, Hp1, Hp2, hardcoded_public_key_hex.
  split; [reflexivity|]. split; [reflexivity|]. split; [reflexivity|].
  rewrite hardcoded_key_pair. reflexivity.
Qed.

(** ** The legacy provider: reading a signature *)

Lemma digit_val_hex (c : ascii) :
  match big.digit_val c with Some d => d <? 16 | None => false end
  = is_hex_digit c.
Proof. destruct c as [[] [] [] [] [] [] [] []]; reflexivity. Qed.

Lemma scan_digits_is_Some (s : string) (acc : Z) :
  is_Some (big.scan_digits 16 acc s)
  <-> forallb is_hex_digit (String.list_ascii_of_string s) = true.
Proof.
  revert acc. induction s as [|c s IH]; intros acc; simpl.
  - split; [done|by eexists].
  - rewrite <- digit_val_hex. destruct (big.digit_val c) as [d|]; simpl.
    + destruct (d <? 16); simpl; [apply IH|].
      split; [intros [? ?]; discriminate|discriminate].
    + split; [intros [? ?]; discriminate|discriminate].
Qed.

Lemma scan_abs_is_Some (s : string) :
  is_Some (big.scan_abs 16 s)
  <-> negb (String.eqb s "")
      && forallb is_hex_digit (String.list_ascii_of_string s) = true.
Proof.
  destruct s as [|c s].
  - simpl. split; [intros [? ?]; discriminate|discriminate].
  - unfold big.scan_abs. rewrite scan_digits_is_Some. reflexivity.
Qed.

Lemma SetString_cons (c : ascii) (rest : string) (base : Z) :
  big.SetString (String c rest) base
  = if Ascii.eqb c "+"%char || Ascii.eqb c "-"%char then
      if Ascii.eqb c "-"%char then Z.opp <$> big.scan_abs base rest
      else big.scan_abs base rest
    else big.scan_abs base (String c rest).
Proof. destruct c as [[] [] [] [] [] [] [] []]; reflexivity. Qed.

(** [SetString] in base 16 succeeds exactly on the hexadecimal numbers. *)
Lemma SetString_hex_number (s : string) :
  is_Some (big.SetString s 16) <-> hex_number s = true.
Proof.
  unfold hex_number. destruct s as [|c rest].
  - simpl. split; [intros [? ?]; discriminate|discriminate].
  - rewrite SetString_cons.
    destruct (Ascii.eqb c "+"%char || Ascii.eqb c "-"%char).
    + rewrite <- scan_abs_is_Some. destruct (Ascii.eqb c "-"%char); [|done].
      apply fmap_is_Some.
    + apply scan_abs_is_Some.
Qed.

(** C6. [VerifyIdentityWithEntry] returns an error only for a malformed
    signature. For a well-formed one (each half a hexadecimal number) it
    returns no error, and the boolean is the verdict of the ECDSA
    verification of the two numbers against the digest of the message and
    the identity's public key: [false], without error, for a signature
    that is cryptographically invalid. *)
Theorem VerifyIdentityWithEntry_error_only_malformed
    (identity : identities.Identity) (data : bytes) (signature : string) :
  (wellformed_signature signature = true ->
   exists r s : Z,
     signature_numbers signature = Some (r, s)
     /\ legacy_provider.VerifyIdentityWithEntry identity data signature
        = (ecdsa.Verify (identities.PublicKey identity)
             (sha256.Sum256 data) r s, None))
  /\ (wellformed_signature signature = false ->
      legacy_provider.VerifyIdentityWithEntry identity data signature
      = (false, Some "invalid signature format")).
Proof.
  unfold wellformed_signature, signature_numbers,
    legacy_provider.VerifyIdentityWithEntry.
  pose proof (SetString_hex_number
    (slice_to (String.length signature / 2) signature)) as H1.
  pose proof (SetString_hex_number
    (slice_from (String.length signature / 2) signature)) as H2.
  destruct (big.SetString (slice_to _ _) 16) as [r|];
    destruct (big.SetString (slice_from _ _) 16) as [s|].
  - split; [intros _; by exists r, s|].
    intros [H|H]%andb_false_iff; [apply not_true_iff_false in H;
      destruct H; apply H1|apply not_true_iff_false in H; destruct H;
      apply H2]; by eexists.
  - split; [|done]. intros [_ H]%andb_true_iff.
    apply H2 in H as [? ?]. discriminate.
  - split; [|done]. intros [H _]%andb_true_iff.
    apply H1 in H as [? ?]. discriminate.
  - split; [|done]. intros [H _]%andb_true_iff.
    apply H1 in H as [? ?]. discriminate.
Qed.

(** ** Signatures on the wire *)

(** [signData] and [SignIdentity] write [r] and [s] on as many bytes as
    each takes, so two different signatures can give the same string. *)
Lemma natural_width_hex_ambiguous :
  hex.EncodeToString (big.Bytes 0x01) +:+ hex.EncodeToString (big.Bytes 0x0203)
  = hex.EncodeToString (big.Bytes 0x0102) +:+ hex.EncodeToString (big.Bytes 0x03).
Proof. vm_compute. reflexivity. Qed.

(** The signature of "test-data" under the fixed key and a nonce for
    which [r] has a leading zero byte, and its verification. *)
Lemma Sign_short_r :
  ecdsa.Sign (Some nonce_short_r) providers.createHardcodedKeyPair
    (sha256.Sum256 (bytes_of_string "test-data"))
  = inl (0x0088ab8f7bfcf92afebcfc675a3c3ca711e73e3082d459280e6a67efe71ee9b2,
         0x146b7d984d9dbb324f1e1b7e3b50db924879a13a907d9f6a959fd351845f5cb4).
Proof. fixed_key. vm_compute. reflexivity. Qed.

Lemma Verify_short_r :
  ecdsa.Verify (ecdsa.Public providers.createHardcodedKeyPair)
    (sha256.Sum256 (bytes_of_string "test-data"))
    0x0088ab8f7bfcf92afebcfc675a3c3ca711e73e3082d459280e6a67efe71ee9b2
    0x146b7d984d9dbb324f1e1b7e3b50db924879a13a907d9f6a959fd351845f5cb4
  = true.
Proof. fixed_key. vm_compute. reflexivity. Qed.

Lemma short_r_signature_rejected :
  legacy_provider.VerifyIdentityWithEntry alice (bytes_of_string "test-data")
    "88ab8f7bfcf92afebcfc675a3c3ca711e73e3082d459280e6a67efe71ee9b2146b7d984d9dbb324f1e1b7e3b50db924879a13a907d9f6a959fd351845f5cb4"
  = (false, None).
Proof. fixed_key. vm_compute. reflexivity. Qed.

(** The same [(r, s)], each written on the 32 bytes of the curve, passes
    the check of the sibling [verifyECDSASignature], which splits at that
    width. *)
Lemma fixed_width_signature_verifies :
  legacy_provider.verifyECDSASignature
    (ecdsa.Public providers.createHardcodedKeyPair)
    (sha256.Sum256 (bytes_of_string "test-data"))
    (big.be_bytes 32
       0x0088ab8f7bfcf92afebcfc675a3c3ca711e73e3082d459280e6a67efe71ee9b2
     ++ big.be_bytes 32
          0x146b7d984d9dbb324f1e1b7e3b50db924879a13a907d9f6a959fd351845f5cb4)
  = (true, None).
Proof. fixed_key. vm_compute. reflexivity. Qed.

(** C2, on an input where it fails. With the fixed key, the message
    "test-data" and a nonce for which [r] has a leading zero byte, ECDSA
    yields a valid signature [(r, s)]; [signData] (and [SignIdentity])
    write [r] on 31 bytes and [s] on 32, a string of 126 digits;
    [VerifyIdentityWithEntry] cuts it in the middle, reads other numbers
    than [(r, s)], and returns [false]. *)
Theorem signData_short_r_not_verified :
  let priv := providers.createHardcodedKeyPair in
  let data := bytes_of_string "test-data" in
  let r := 0x0088ab8f7bfcf92afebcfc675a3c3ca711e73e3082d459280e6a67efe71ee9b2 in
  let s := 0x146b7d984d9dbb324f1e1b7e3b50db924879a13a907d9f6a959fd351845f5cb4 in
  let signature :=
    "88ab8f7bfcf92afebcfc675a3c3ca711e73e3082d459280e6a67efe71ee9b2146b7d984d9dbb324f1e1b7e3b50db924879a13a907d9f6a959fd351845f5cb4" in
  ecdsa.Sign (Some nonce_short_r) priv (sha256.Sum256 data) = inl (r, s)
  /\ ecdsa.Verify (ecdsa.Public priv) (sha256.Sum256 data) r s = true
  /\ length (big.Bytes r) = 31%nat
  /\ length (big.Bytes s) = 32%nat
  /\ providers.signData (Some nonce_short_r) priv data = (signature, None)
  /\ identities.PublicKey alice = ecdsa.Public priv
  /\ legacy_provider.SignIdentity (Some nonce_short_r) "test-data" alice
     = (signature, None)
  /\ String.length signature = 126%nat
  /\ signature_numbers signature <> Some (r, s)
  /\ legacy_provider.VerifyIdentityWithEntry alice data signature
     = (false, None).
Proof.
  intros priv data r s signature. subst priv data r s signature.
  split; [exact Sign_short_r|]. split; [exact Verify_short_r|].
  split; [vm_compute; reflexivity|]. split; [vm_compute; reflexivity|].
  split.
  { unfold providers.signData. rewrite Sign_short_r.
    vm_compute. reflexivity. }
  split; [reflexivity|]. split.
  { unfold legacy_provider.SignIdentity, alice.
    cbn [identities.PrivateKey]. rewrite Sign_short_r.
    vm_compute. reflexivity. }
  split; [vm_compute; reflexivity|].
  split; [vm_compute; discriminate|].
  exact short_r_signature_rejected.
Qed.

(** A well-formed signature that is not valid, and a malformed one. *)
Lemma VerifyIdentityWithEntry_error_only_malformed_witness :
  let signature :=
    "88ab8f7bfcf92afebcfc675a3c3ca711e73e3082d459280e6a67efe71ee9b2146b7d984d9dbb324f1e1b7e3b50db924879a13a907d9f6a959fd351845f5cb4" in
  (wellformed_signature signature = true
   /\ exists r s : Z,
        signature_numbers signature = Some (r, s)
        /\ legacy_provider.VerifyIdentityWithEntry alice
             (bytes_of_string "test-data") signature
           = (ecdsa.Verify (identities.PublicKey alice)
                (sha256.Sum256 (bytes_of_string "test-data")) r s, None))
  /\ wellformed_signature "0a0g" = false
  /\ legacy_provider.VerifyIdentityWithEntry alice (bytes_of_string "hello")
       "0a0g" = (false, Some "invalid signature format").
Proof.
  intros signature.
  pose proof (VerifyIdentityWithEntry_error_only_malformed alice
                (bytes_of_string "test-data") signature) as [H _].
  pose proof (VerifyIdentityWithEntry_error_only_malformed alice
                (bytes_of_string "hello") "0a0g") as [_ H'].
  assert (Hw : wellformed_signature signature = true)
    by (vm_compute; reflexivity).
  split; [split; [exact Hw|exact (H Hw)]|].
  split; [reflexivity|]. apply H'. reflexivity.
Defined.

(** ** Construction of entries *)

(** The entry [NewEntry] assembles before signing. *)
Lemma NewEntry_inv (identity : identities.Identity) (rnd : option Z)
    (id payload : string) (clock : oplog.clock.Clock)
    (ee : oplog.EncodedEntry) :
  oplog.NewEntry (Some identity) rnd id payload clock = Returns ee ->
  let unsigned :=
    oplog.mkEntry id payload [] [] clock 2 (identities.PublicKeyHex identity)
      (identities.Identity_ identity) "" in
  exists pre signature,
    oplog.Encode unsigned = Returns pre
    /\ identities.Sign rnd identity (oplog.Bytes pre) = (signature, None)
    /\ ee = oplog.mkEncodedEntry (oplog.set_Signature signature unsigned)
              (oplog.Bytes pre) (oplog.CID pre).
Proof.
  unfold oplog.NewEntry. rewrite Encode_returns. cbn [mbind outcome_bind].
  cbn [oplog.Bytes oplog.CID oplog.EncodedEntry_Entry].
  destruct (identities.Sign _ _ _) as [signature [err|]] eqn:E;
    [discriminate|].
  intros [= <-]. eexists _, signature. split; [reflexivity|].
  split; [exact E|reflexivity].
Qed.

(** C1, as the code has it. The bytes and the content identifier of the
    [EncodedEntry] that [NewEntry] returns are those of the canonical
    encoding of the entry with its signature still empty, the input of
    the signature; the identifier is the CIDv1 of the SHA-256 multihash
    of these bytes. Hence entries that [NewEntry] builds from the same
    identity, id, payload and clock have the same identifier whatever
    their signature. *)
Theorem NewEntry_cid_of_presignature_bytes
    (identity : identities.Identity) (rnd rnd' : option Z)
    (id payload : string) (clock : oplog.clock.Clock)
    (ee ee' : oplog.EncodedEntry) :
  oplog.NewEntry (Some identity) rnd id payload clock = Returns ee ->
  oplog.NewEntry (Some identity) rnd' id payload clock = Returns ee' ->
  oplog.Encode (oplog.set_Signature "" (oplog.EncodedEntry_Entry ee))
  = Returns
      (oplog.mkEncodedEntry
         (oplog.set_Signature "" (oplog.EncodedEntry_Entry ee))
         (oplog.Bytes ee) (oplog.CID ee))
  /\ oplog.CID ee
     = cid.NewCidV1 cid.DagCBOR
         (mh.uvarint mh.SHA2_256 ++ mh.uvarint 32
          ++ sha256.Sum256 (oplog.Bytes ee))
  /\ oplog.CID ee' = oplog.CID ee.
Proof.
  intros (pre & sig & Hpre & _ & ->)%NewEntry_inv
         (pre' & sig' & Hpre' & _ & ->)%NewEntry_inv.
  rewrite Hpre in Hpre'. injection Hpre' as <-.
  rewrite Encode_returns in Hpre. injection Hpre as <-.
  cbn [oplog.Bytes oplog.CID oplog.EncodedEntry_Entry].
  split; [|split; reflexivity].
  rewrite Encode_returns. reflexivity.
Qed.

(** The entry of the end-to-end scenario: identity alice, payload
    "hello", clock (alice, 1). It verifies. *)
Lemma NewEntry_hello_verifies :
  exists ee,
    oplog.NewEntry (Some alice) (Some nonce_0) "log-1" "hello" clock_1
    = Returns ee
    /\ oplog.VerifyEntrySignature legacy_registry (Some alice) ee
       = Returns true.
Proof.
  fixed_key. eexists. split; [vm_compute; reflexivity|].
  vm_compute. reflexivity.
Qed.

(** The same entry under another nonce. *)
Lemma NewEntry_hello_returns_1 :
  exists ee,
    oplog.NewEntry (Some alice) (Some nonce_1) "log-1" "hello" clock_1
    = Returns ee.
Proof. fixed_key. eexists. vm_compute. reflexivity. Qed.

Lemma NewEntry_cid_of_presignature_bytes_witness :
  exists ee ee',
    oplog.NewEntry (Some alice) (Some nonce_0) "log-1" "hello" clock_1
    = Returns ee
    /\ oplog.NewEntry (Some alice) (Some nonce_1) "log-1" "hello" clock_1
       = Returns ee'
    /\ oplog.CID ee' = oplog.CID ee.
Proof.
  destruct NewEntry_hello_verifies as (ee & H & _).
  destruct NewEntry_hello_returns_1 as [ee' H'].
  exists ee, ee'. split; [exact H|]. split; [exact H'|].
  exact (proj2 (proj2 (NewEntry_cid_of_presignature_bytes
                         alice _ _ _ _ _ ee ee' H H'))).
Defined.

(** C1, as the claim has it, fails on the entry of the scenario: the
    identifier [NewEntry] returns is not the identifier of the encoding
    of the signed entry. *)
Lemma NewEntry_cid_not_of_signed_entry :
  exists ee signed,
    oplog.NewEntry (Some alice) (Some nonce_0) "log-1" "hello" clock_1
    = Returns ee
    /\ oplog.Encode (oplog.EncodedEntry_Entry ee) = Returns signed
    /\ oplog.Signature (oplog.EncodedEntry_Entry signed)
       = "100a889f9f270c23e5b0bf5eb49ae8e9c086d057dbcf0b5d9d94bfa79d77ddfb97f269606aaf3a870e3079b7ba322e4daf489437a03de86745df7af843cac652"
    /\ oplog.CID ee <> oplog.CID signed.
Proof.
  fixed_key. eexists _, _. split; [vm_compute; reflexivity|].
  split; [vm_compute; reflexivity|].
  split; [vm_compute; reflexivity|].
  vm_compute. discriminate.
Qed.

(** C4, as the code has it. Neither [Encode] nor [NewEntry] has an error
    result. [Encode] returns for every entry. [NewEntry] returns an
    encoded entry when signing the pre-signature bytes succeeds, and
    panics, with the error of the signer, exactly when signing fails. *)
Theorem NewEntry_panics_iff_Sign_fails
    (identity : identities.Identity) (rnd : option Z)
    (id payload : string) (clock : oplog.clock.Clock) :
  let unsigned :=
    oplog.mkEntry id payload [] [] clock 2 (identities.PublicKeyHex identity)
      (identities.Identity_ identity) "" in
  let signed :=
    identities.Sign rnd identity
      (dagcbor.encode_node (oplog.entry_node unsigned)) in
  (forall entry : oplog.Entry, exists ee, oplog.Encode entry = Returns ee)
  /\ (forall err : error,
        oplog.NewEntry (Some identity) rnd id payload clock = Panics err
        <-> signed.2 = Some err)
  /\ ((exists ee,
         oplog.NewEntry (Some identity) rnd id payload clock = Returns ee)
      <-> signed.2 = None).
Proof.
  intros unsigned signed. split; [intros entry; eexists; apply Encode_returns|].
  unfold oplog.NewEntry. fold unsigned. rewrite Encode_returns.
  cbn [mbind outcome_bind oplog.Bytes oplog.CID oplog.EncodedEntry_Entry].
  fold signed. destruct signed as [signature [e|]]; cbn [snd].
  - split.
    + intros err. split; congruence.
    + split; [intros [? ?]; discriminate|discriminate].
  - split.
    + intros err. split; discriminate.
    + split; [reflexivity|intros _; by eexists].
Qed.

(** C4, as the claim has it, fails: signing for an identity without
    private key fails, and [NewEntry] panics; so it does when the random
    reader fails. *)
Lemma NewEntry_panics_without_private_key :
  oplog.NewEntry (Some alice_public) (Some nonce_0) "log-1" "hello" clock_1
  = Panics "private signing key not found for identity"
  /\ oplog.NewEntry (Some alice) None "log-1" "hello" clock_1
     = Panics "ecdsa: reading randomness failed".
Proof. fixed_key. split; vm_compute; reflexivity. Qed.

(** ** Verification of entries, continued *)

(** C3, as the code has it. [VerifyEntrySignature] does not recompute
    the canonical bytes: it hands the bytes stored in the encoded entry
    and the stored signature to the provider of the identity's type. Its
    result is therefore the provider's verdict on the stored bytes, and
    a change of [Payload], [Key] or [Clock.time] in the entry leaves it
    as it was. *)
Theorem VerifyEntrySignature_checks_stored_bytes
    (reg : provider_registry.registry) (identity : option identities.Identity)
    (entry : oplog.EncodedEntry) (payload key : string) (time : Z) :
  oplog.VerifyEntrySignature reg identity (set_Payload payload entry)
  = oplog.VerifyEntrySignature reg identity entry
  /\ oplog.VerifyEntrySignature reg identity (set_Key key entry)
     = oplog.VerifyEntrySignature reg identity entry
  /\ oplog.VerifyEntrySignature reg identity (set_Clock_Time time entry)
     = oplog.VerifyEntrySignature reg identity entry
  /\ (forall (i : identities.Identity) (p : provider_registry.Provider),
        identity = Some i ->
        reg !! identities.Type_ i = Some p ->
        (oplog.VerifyEntrySignature reg identity entry = Returns true
         <-> provider_registry.VerifyIdentityWithEntry p i (oplog.Bytes entry)
               (oplog.Signature (oplog.EncodedEntry_Entry entry))
             = (true, None))).
Proof.
  split; [reflexivity|]. split; [reflexivity|]. split; [reflexivity|].
  intros i p -> Hp. unfold oplog.VerifyEntrySignature,
    provider_registry.GetIdentityProvider. rewrite Hp.
  destruct (provider_registry.VerifyIdentityWithEntry _ _ _ _)
    as [[] [e|]]; split; congruence.
Qed.

(** C3, as the claim has it, fails on the entry of the scenario: with
    one byte of the payload, of the key or of the clock time changed,
    [VerifyEntrySignature] still returns [true]. *)
Lemma VerifyEntrySignature_misses_tampering :
  exists ee,
    oplog.NewEntry (Some alice) (Some nonce_0) "log-1" "hello" clock_1
    = Returns ee
    /\ oplog.VerifyEntrySignature legacy_registry (Some alice) ee
       = Returns true
    /\ oplog.VerifyEntrySignature legacy_registry (Some alice)
         (set_Payload "jello" ee) = Returns true
    /\ oplog.VerifyEntrySignature legacy_registry (Some alice)
         (set_Key
            "f4c21ec733aba051627b303fec1fa68be20750b7b0fe006dd886e7197ade207675df14abfef110d7208acdae475c66df1c4d828d6fd5eb0552e2099b2a8b4c56"
            ee) = Returns true
    /\ oplog.VerifyEntrySignature legacy_registry (Some alice)
         (set_Clock_Time 3 ee) = Returns true.
Proof.
  destruct NewEntry_hello_verifies as (ee & H & Hv).
  exists ee. split; [exact H|]. split; [exact Hv|].
  split; [exact Hv|]. split; exact Hv.
Qed.

Lemma VerifyEntrySignature_checks_stored_bytes_witness :
  exists ee,
    oplog.NewEntry (Some alice) (Some nonce_0) "log-1" "hello" clock_1
    = Returns ee
    /\ legacy_provider.VerifyIdentityWithEntry alice (oplog.Bytes ee)
         (oplog.Signature (oplog.EncodedEntry_Entry ee)) = (true, None).
Proof.
  destruct NewEntry_hello_verifies as (ee & H & Hv).
  exists ee. split; [exact H|].
  apply (proj2 (proj2 (proj2
    (VerifyEntrySignature_checks_stored_bytes legacy_registry (Some alice)
       ee "" "" 0))) alice legacy_provider.NewPublicKeyIdentityProvider
    eq_refl eq_refl). exact Hv.
Defined.

(** ** Creation and verification of identities *)

(** With nonces for which [r] and [s] take the full width the identity
    that [CreateIdentity] returns passes [VerifyIdentity]. *)
Lemma CreateIdentity_alice_verifies :
  exists identity,
    providers.CreateIdentity (reader_of nonce_0 nonce_1) "alice"
    = (Some identity, None)
    /\ providers.VerifyIdentity identity = (true, None).
Proof.
  fixed_key. eexists. split; [vm_compute; reflexivity|].
  vm_compute. reflexivity.
Qed.

(** The identity created when the nonce of the signature over the id
    gives an [r] with a leading zero byte. *)
Lemma CreateIdentity_short_r_returns :
  exists identity,
    providers.CreateIdentity (reader_of nonce_short_r nonce_0) "bob"
    = (Some identity, None)
    /\ identitytypes.Signatures identity !! "id"
       = Some "88ab8f7bfcf92afebcfc675a3c3ca711e73e3082d459280e6a67efe71ee9b282a7808c1bab589dee1b9e978f89d404f6e07bcd3c4032d65bca6c48f3f079d6"
    /\ providers.VerifyIdentity identity
       = (false, Some "invalid or missing ID signature").
Proof.
  fixed_key. eexists. split; [vm_compute; reflexivity|].
  split; vm_compute; reflexivity.
Qed.

(** C5, on an input where it fails. When the nonce of the signature over
    the id gives an [r] with a leading zero byte, the identity that
    [CreateIdentity] returns carries a self-signature over the id of 126
    digits, and [VerifyIdentity] rejects the identity. *)
Theorem CreateIdentity_short_r_not_verified :
  exists (identity : identitytypes.Identity) (idSignature : string),
    providers.CreateIdentity (reader_of nonce_short_r nonce_0) "bob"
    = (Some identity, None)
    /\ identitytypes.Signatures identity !! "id" = Some idSignature
    /\ idSignature
       = (providers.signData (Some nonce_short_r)
            providers.createHardcodedKeyPair (bytes_of_string "bob")).1
    /\ String.length idSignature = 126%nat
    /\ providers.VerifyIdentity identity
       = (false, Some "invalid or missing ID signature").
Proof.
  destruct CreateIdentity_short_r_returns as (identity & H & Hsig & Hv).
  exists identity. eexists. split; [exact H|]. split; [exact Hsig|].
  split; [|split; [reflexivity|exact Hv]].
  apply CreateIdentity_inv in H as (_ & _ & _ & _ & Hid & _).
  rewrite Hsig in Hid. apply (inj Some). exact Hid.
Qed.

Lemma CreateIdentity_same_key_pair_witness :
  exists identity1 identity2,
    providers.CreateIdentity (reader_of nonce_0 nonce_1) "alice"
    = (Some identity1, None)
    /\ providers.CreateIdentity (reader_of nonce_short_r nonce_0) "bob"
       = (Some identity2, None)
    /\ identitytypes.PublicKey identity1 = identitytypes.PublicKey identity2
    /\ identitytypes.PrivateKey identity1 = identitytypes.PrivateKey identity2.
Proof.
  destruct CreateIdentity_alice_verifies as (identity1 & H1 & _).
  destruct CreateIdentity_short_r_returns as (identity2 & H2 & _).
  exists identity1, identity2. split; [exact H1|]. split; [exact H2|].
  destruct (CreateIdentity_same_key_pair _ _ _ _ _ _ H1 H2) as (? & ? & _).
  split; assumption.
Defined.

(** * Further properties of the code *)

(** ** Bytes, hexadecimal strings and big integers *)

Lemma byte_to_Z_bound (b : byte) : 0 <= byte_to_Z b < 256.
Proof.
  unfold byte_to_Z. pose proof (Byte.to_N_bounded b). lia.
Qed.

Lemma byte_to_Z_to_byte (z : Z) : byte_to_Z (Z_to_byte z) = z mod 256.
Proof.
  unfold byte_to_Z, Z_to_byte.
  pose proof (Z.mod_pos_bound z 256 eq_refl) as Hb.
  destruct (Byte.of_N (Z.to_N (z mod 256))) as [b|] eqn:E.
  - apply Byte.to_of_N in E. rewrite E. lia.
  - apply Byte.of_N_None_iff in E. lia.
Qed.

Lemma Z_to_byte_to_Z (b : byte) : Z_to_byte (byte_to_Z b) = b.
Proof.
  unfold Z_to_byte, byte_to_Z.
  pose proof (Byte.to_N_bounded b).
  rewrite Z.mod_small by lia. rewrite N2Z.id, Byte.of_to_N. reflexivity.
Qed.

Lemma string_length_app (a b : string) :
  String.length (a +:+ b) = (String.length a + String.length b)%nat.
Proof. induction a as [|c a IH]; simpl; [reflexivity|by rewrite IH]. Qed.

Lemma substring_all (s : string) : String.substring 0 (String.length s) s = s.
Proof. induction s as [|c s IH]; simpl; [reflexivity|by rewrite IH]. Qed.

Lemma slice_to_app (a b : string) : slice_to (String.length a) (a +:+ b) = a.
Proof.
  unfold slice_to. induction a as [|c a IH]; simpl.
  - by destruct b.
  - by rewrite IH.
Qed.

Lemma slice_from_app (a b : string) :
  slice_from (String.length a) (a +:+ b) = b.
Proof.
  unfold slice_from. rewrite string_length_app.
  replace (String.length a + String.length b - String.length a)%nat
    with (String.length b) by lia.
  induction a as [|c a IH]; simpl; [apply substring_all|exact IH].
Qed.

Lemma hex_length (b : bytes) :
  String.length (hex.EncodeToString b) = (2 * length b)%nat.
Proof. induction b as [|c b IH]; simpl; [reflexivity|rewrite IH; lia]. Qed.

(** A property of the sixteen values of a nibble is checked value by
    value. *)
Lemma nibble_cases (P : Z -> Prop) :
  (forall k : nat, (k < 16)%nat -> P (Z.of_nat k)) ->
  forall n : Z, 0 <= n < 16 -> P n.
Proof. intros H n Hn. rewrite <- (Z2Nat.id n) by lia. apply H. lia. Qed.

Lemma digit_val_hex_digit (n : Z) :
  0 <= n < 16 -> big.digit_val (hex.digit n) = Some n.
Proof.
  revert n. apply nibble_cases. intros k Hk.
  do 16 (destruct k as [|k]; [reflexivity|]). lia.
Qed.

Lemma fromHexChar_hex_digit (n : Z) :
  0 <= n < 16 -> hex.fromHexChar (hex.digit n) = Some n.
Proof.
  revert n. apply nibble_cases. intros k Hk.
  do 16 (destruct k as [|k]; [reflexivity|]). lia.
Qed.

Lemma hex_digit_is_hex (n : Z) : 0 <= n < 16 -> is_hex_digit (hex.digit n) = true.
Proof.
  intros H. rewrite <- digit_val_hex, (digit_val_hex_digit n H).
  apply Z.ltb_lt. lia.
Qed.

Lemma byte_nibbles (b : byte) :
  0 <= byte_to_Z b / 16 < 16 /\ 0 <= byte_to_Z b mod 16 < 16
  /\ (byte_to_Z b / 16) * 16 + byte_to_Z b mod 16 = byte_to_Z b.
Proof.
  pose proof (byte_to_Z_bound b) as Hb.
  pose proof (Z.div_mod (byte_to_Z b) 16 ltac:(lia)).
  pose proof (Z.mod_pos_bound (byte_to_Z b) 16 ltac:(lia)).
  split; [|lia]. split; [apply Z.div_pos; lia|].
  apply Z.div_lt_upper_bound; lia.
Qed.

(** Decoding inverts encoding. *)
Lemma hex_Decode_Encode (b : bytes) :
  hex.DecodeString (hex.EncodeToString b) = Some b.
Proof.
  induction b as [|c b IH]; [reflexivity|].
  destruct (byte_nibbles c) as (H1 & H2 & H3).
  cbn [hex.EncodeToString hex.DecodeString].
  rewrite (fromHexChar_hex_digit _ H1), (fromHexChar_hex_digit _ H2), IH.
  rewrite H3, Z_to_byte_to_Z. reflexivity.
Qed.

Lemma hex_all_digits (b : bytes) :
  forallb is_hex_digit (String.list_ascii_of_string (hex.EncodeToString b))
  = true.
Proof.
  induction b as [|c b IH]; [reflexivity|].
  destruct (byte_nibbles c) as (H1 & H2 & _).
  cbn [hex.EncodeToString String.list_ascii_of_string forallb].
  by rewrite (hex_digit_is_hex _ H1), (hex_digit_is_hex _ H2), IH.
Qed.

(** Reading the hex of a byte string in base 16 gives its big-endian
    value. *)
Lemma scan_digits_hex (b : bytes) (acc : Z) :
  big.scan_digits 16 acc (hex.EncodeToString b)
  = Some (fold_left (fun a c => a * 256 + byte_to_Z c) b acc).
Proof.
  revert acc. induction b as [|c b IH]; intros acc; [reflexivity|].
  destruct (byte_nibbles c) as (H1 & H2 & H3).
  cbn [hex.EncodeToString big.scan_digits fold_left].
  rewrite (digit_val_hex_digit _ H1), (digit_val_hex_digit _ H2).
  destruct (Z.ltb_spec (byte_to_Z c / 16) 16); [|lia].
  destruct (Z.ltb_spec (byte_to_Z c mod 16) 16); [|lia].
  rewrite IH. do 2 f_equal. lia.
Qed.

Lemma hex_digit_not_sign (n : Z) :
  0 <= n < 16 ->
  Ascii.eqb (hex.digit n) "+"%char || Ascii.eqb (hex.digit n) "-"%char = false.
Proof.
  revert n. apply nibble_cases. intros k Hk.
  do 16 (destruct k as [|k]; [reflexivity|]). lia.
Qed.

Lemma SetString_hex (b : bytes) :
  b <> [] -> big.SetString (hex.EncodeToString b) 16 = Some (big.SetBytes b).
Proof.
  destruct b as [|c b]; [done|]. intros _.
  destruct (byte_nibbles c) as (H1 & _).
  change (hex.EncodeToString (c :: b))
    with (String (hex.digit (byte_to_Z c / 16))
            (String (hex.digit (byte_to_Z c mod 16)) (hex.EncodeToString b))).
  rewrite SetString_cons, (hex_digit_not_sign _ H1).
  unfold big.scan_abs.
  change (String (hex.digit (byte_to_Z c / 16))
            (String (hex.digit (byte_to_Z c mod 16)) (hex.EncodeToString b)))
    with (hex.EncodeToString (c :: b)).
  apply scan_digits_hex.
Qed.

Lemma be_bytes_length (n : nat) (x : Z) : length (big.be_bytes n x) = n.
Proof.
  revert x. induction n as [|n IH]; intros x; simpl; [reflexivity|].
  rewrite length_app, IH. simpl. lia.
Qed.

Lemma SetBytes_snoc (l : bytes) (c : byte) :
  big.SetBytes (l ++ [c]) = big.SetBytes l * 256 + byte_to_Z c.
Proof. unfold big.SetBytes. by rewrite fold_left_app. Qed.

(** The big-endian value of the [n] bytes of [x] is [x] modulo
    [256^n]. *)
Lemma SetBytes_be_bytes (n : nat) (x : Z) :
  big.SetBytes (big.be_bytes n x) = x mod 256 ^ Z.of_nat n.
Proof.
  revert x. induction n as [|n IH]; intros x.
  - simpl. by rewrite Z.mod_1_r.
  - cbn [big.be_bytes]. rewrite SetBytes_snoc, IH, byte_to_Z_to_byte.
    rewrite Nat2Z.inj_succ, Z.pow_succ_r by lia.
    rewrite (Z.rem_mul_r x 256 (256 ^ Z.of_nat n)) by lia. lia.
Qed.

Lemma byte_len_bound (x : Z) :
  0 <= x -> x < 256 ^ Z.of_nat (big.byte_len x).
Proof.
  intros Hx. unfold big.byte_len. rewrite Z.abs_eq by lia.
  destruct (Z.eqb_spec x 0) as [->|Hne]; [simpl; lia|].
  assert (0 < x) as Hpos by lia.
  pose proof (Z.log2_spec x Hpos) as [_ Hlt].
  pose proof (Z.log2_nonneg x) as Hl.
  rewrite Z2Nat.id by (pose proof (Z.div_pos (Z.log2 x) 8); lia).
  change 256 with (2 ^ 8). rewrite <- Z.pow_mul_r by
    (try lia; pose proof (Z.div_pos (Z.log2 x) 8); lia).
  eapply Z.lt_le_trans; [exact Hlt|].
  apply Z.pow_le_mono_r; [lia|].
  pose proof (Z.div_mod (Z.log2 x) 8 ltac:(lia)).
  pose proof (Z.mod_pos_bound (Z.log2 x) 8 ltac:(lia)). lia.
Qed.

(** [SetBytes] inverts [Bytes] on the non-negative integers. *)
Lemma SetBytes_Bytes (x : Z) : 0 <= x -> big.SetBytes (big.Bytes x) = x.
Proof.
  intros Hx. unfold big.Bytes. rewrite Z.abs_eq by lia.
  rewrite SetBytes_be_bytes. apply Z.mod_small.
  split; [lia|by apply byte_len_bound].
Qed.

Lemma Bytes_length (x : Z) : length (big.Bytes x) = big.byte_len x.
Proof. apply be_bytes_length. Qed.

Lemma byte_len_pos (x : Z) : 0 < x -> (0 < big.byte_len x)%nat.
Proof.
  intros Hx. unfold big.byte_len. rewrite Z.abs_eq by lia.
  destruct (Z.eqb_spec x 0); [lia|].
  pose proof (Z.log2_nonneg x). pose proof (Z.div_pos (Z.log2 x) 8). lia.
Qed.

Lemma byte_len_le (x : Z) (n : nat) :
  0 <= x < 256 ^ Z.of_nat n -> (big.byte_len x <= n)%nat.
Proof.
  intros [Hx Hlt]. unfold big.byte_len. rewrite Z.abs_eq by lia.
  destruct (Z.eqb_spec x 0); [lia|].
  assert (0 < x) as Hpos by lia.
  pose proof (Z.log2_spec x Hpos) as [Hle _].
  pose proof (Z.log2_nonneg x) as Hl.
  assert (Z.log2 x < 8 * Z.of_nat n).
  { apply (Z.pow_lt_mono_r_iff 2); [lia|lia|].
    eapply Z.le_lt_trans; [exact Hle|].
    rewrite Z.pow_mul_r by lia. exact Hlt. }
  assert (Z.log2 x / 8 < Z.of_nat n) by (apply Z.div_lt_upper_bound; lia).
  pose proof (Z.div_pos (Z.log2 x) 8). lia.
Qed.

(** ** Slices of strings *)

Lemma substring_length (n m : nat) (s : string) :
  (n + m <= String.length s)%nat ->
  String.length (String.substring n m s) = m.
Proof.
  revert n m. induction s as [|c s IH]; intros [|n] [|m] H; simpl in *;
    try lia; try reflexivity.
  - rewrite IH; lia.
  - apply IH. lia.
  - apply IH. lia.
Qed.

Lemma substring_forallb (P : ascii -> bool) (n m : nat) (s : string) :
  forallb P (String.list_ascii_of_string s) = true ->
  forallb P (String.list_ascii_of_string (String.substring n m s)) = true.
Proof.
  revert n m. induction s as [|c s IH]; intros [|n] [|m] H; simpl in *;
    try reflexivity; try exact H.
  - apply andb_true_iff in H as [Hc Hs]. rewrite Hc. simpl. by apply IH.
  - apply andb_true_iff in H as [_ Hs]. by apply IH.
  - apply andb_true_iff in H as [_ Hs]. by apply IH.
Qed.

Lemma slice_to_prefix (k : nat) (a b : string) :
  (k <= String.length a)%nat -> slice_to k (a +:+ b) = slice_to k a.
Proof.
  unfold slice_to. revert k. induction a as [|c a IH]; intros [|k] H;
    simpl in *; try lia.
  - by destruct b.
  - reflexivity.
  - rewrite IH; [reflexivity|lia].
Qed.

Lemma slice_to_beyond (k : nat) (a b : string) :
  slice_to (String.length a + k) (a +:+ b) = a +:+ slice_to k b.
Proof.
  unfold slice_to. induction a as [|c a IH]; simpl; [reflexivity|].
  by rewrite IH.
Qed.

Lemma slice_split (k : nat) (a : string) :
  (k <= String.length a)%nat -> a = slice_to k a +:+ slice_from k a.
Proof.
  unfold slice_to, slice_from. revert k.
  induction a as [|c a IH]; intros [|k] H; simpl in *; try lia.
  - reflexivity.
  - by rewrite substring_all.
  - change (String c a
            = String c (String.substring 0 k a
                        +:+ String.substring k (String.length a - k) a)).
    f_equal. apply IH. lia.
Qed.

(** ** Signatures on the wire, in general *)

Lemma order_value :
  elliptic.order
  = 0xffffffff00000000ffffffffffffffffbce6faada7179e84f3b9cac2fc632551.
Proof. vm_compute. reflexivity. Qed.

Lemma scalar_div_bound (a b : Z) :
  0 <= elliptic.scalar_div a b < elliptic.order.
Proof.
  unfold elliptic.scalar_div. rewrite BigZ.spec_modulo.
  fold elliptic.order. apply Z.mod_pos_bound. rewrite order_value. lia.
Qed.

(** The numbers of a signature that [ecdsa.Sign] returns lie strictly
    between zero and the order of the curve. *)
Lemma Sign_bounds (rnd : option Z) (priv : ecdsa.PrivateKey) (hash : bytes)
    (r s : Z) :
  ecdsa.Sign rnd priv hash = inl (r, s) ->
  0 < r < elliptic.order /\ 0 < s < elliptic.order.
Proof.
  unfold ecdsa.Sign. destruct rnd as [k|]; [|discriminate].
  destruct ((0 <? k) && (k <? elliptic.order)); [|discriminate].
  cbv zeta.
  destruct (Z.eqb_spec ((elliptic.ScalarBaseMult k).1 mod elliptic.order) 0)
    as [|Hr]; [discriminate|].
  match goal with
  | |- context [Z.eqb ?x 0] => destruct (Z.eqb_spec x 0) as [|Hs]
  end; [discriminate|].
  intros [= <- <-].
  pose proof (Z.mod_pos_bound (elliptic.ScalarBaseMult k).1 elliptic.order)
    as Hb. rewrite order_value in Hb at 1. specialize (Hb eq_refl).
  match type of Hs with
  | elliptic.scalar_div ?a ?b <> 0 => pose proof (scalar_div_bound a b)
  end.
  lia.
Qed.

Lemma order_lt_256_32 : elliptic.order < 256 ^ Z.of_nat 32.
Proof. rewrite order_value. reflexivity. Qed.

Lemma signData_wire (rnd : option Z) (priv : ecdsa.PrivateKey) (data : bytes)
    (signature : string) :
  providers.signData rnd priv data = (signature, None) ->
  exists r s,
    ecdsa.Sign rnd priv (sha256.Sum256 data) = inl (r, s)
    /\ signature = wire_signature r s.
Proof.
  unfold providers.signData.
  destruct (ecdsa.Sign rnd priv (sha256.Sum256 data)) as [[r s]|e];
    [|discriminate].
  intros [= <-]. by exists r, s.
Qed.

Lemma wire_signature_length (r s : Z) :
  String.length (wire_signature r s)
  = (2 * big.byte_len r + 2 * big.byte_len s)%nat.
Proof.
  unfold wire_signature. rewrite string_length_app, !hex_length, !Bytes_length.
  lia.
Qed.

Lemma string_forallb_app (P : ascii -> bool) (a b : string) :
  forallb P (String.list_ascii_of_string (a +:+ b))
  = forallb P (String.list_ascii_of_string a)
    && forallb P (String.list_ascii_of_string b).
Proof.
  induction a as [|c a IH]; [reflexivity|].
  change (String c a +:+ b) with (String c (a +:+ b)).
  cbn [String.list_ascii_of_string forallb]. by rewrite IH, andb_assoc.
Qed.

Lemma wire_signature_hex (r s : Z) :
  forallb is_hex_digit (String.list_ascii_of_string (wire_signature r s))
  = true.
Proof.
  unfold wire_signature. by rewrite string_forallb_app, !hex_all_digits.
Qed.

Lemma wire_signature_bounds (r s : Z) :
  0 < r < elliptic.order -> 0 < s < elliptic.order ->
  String.length (wire_signature r s)
  = (2 * (big.byte_len r + big.byte_len s))%nat
  /\ (4 <= String.length (wire_signature r s) <= 128)%nat.
Proof.
  intros [Hr0 Hr] [Hs0 Hs]. rewrite wire_signature_length.
  pose proof (byte_len_pos r Hr0). pose proof (byte_len_pos s Hs0).
  pose proof order_lt_256_32.
  pose proof (byte_len_le r 32 ltac:(lia)).
  pose proof (byte_len_le s 32 ltac:(lia)).
  split; lia.
Qed.

(** An all-digit, non-empty string is a hexadecimal number. *)
Lemma is_hex_digit_not_sign (c : ascii) :
  is_hex_digit c = true ->
  Ascii.eqb c "+"%char || Ascii.eqb c "-"%char = false.
Proof. destruct c as [[] [] [] [] [] [] [] []]; (reflexivity || discriminate). Qed.

Lemma hex_digits_hex_number (s : string) :
  s <> "" ->
  forallb is_hex_digit (String.list_ascii_of_string s) = true ->
  hex_number s = true.
Proof.
  destruct s as [|c s]; [done|]. intros _ H. unfold hex_number.
  pose proof H as H'. cbn [String.list_ascii_of_string forallb] in H'.
  apply andb_true_iff in H' as [Hc _].
  rewrite (is_hex_digit_not_sign c Hc). by rewrite H.
Qed.

Lemma string_length_0 (s : string) : String.length s = 0%nat -> s = "".
Proof. by destruct s. Qed.

(** Both halves of a signature on the wire are hexadecimal numbers. *)
Lemma wire_signature_wellformed (r s : Z) :
  0 < r -> 0 < s -> wellformed_signature (wire_signature r s) = true.
Proof.
  intros Hr Hs. pose proof (byte_len_pos r Hr). pose proof (byte_len_pos s Hs).
  pose proof (wire_signature_length r s) as Hl.
  pose proof (wire_signature_hex r s) as Hd.
  unfold wellformed_signature.
  assert (String.length (wire_signature r s) / 2
          = big.byte_len r + big.byte_len s)%nat as Hh.
  { rewrite Hl, <- Nat.mul_add_distr_l. by rewrite Nat.mul_comm, Nat.div_mul. }
  rewrite Hh. apply andb_true_iff. split; apply hex_digits_hex_number.
  - intros E. apply (f_equal String.length) in E.
    unfold slice_to in E. rewrite substring_length in E by lia.
    simpl in E. lia.
  - by apply substring_forallb.
  - intros E. apply (f_equal String.length) in E.
    unfold slice_from in E. rewrite substring_length in E by lia.
    simpl in E. lia.
  - by apply substring_forallb.
Qed.

(** X1. A signature that [signData] returns is the hex of [r] followed by
    the hex of [s], at their natural widths: a string of hexadecimal
    digits only, of an even length, twice the number of bytes of [r] and
    [s], hence at least 4 and at most 128. *)
Theorem signData_signature_shape
    (rnd : option Z) (priv : ecdsa.PrivateKey) (data : bytes)
    (signature : string) :
  providers.signData rnd priv data = (signature, None) ->
  exists r s : Z,
    ecdsa.Sign rnd priv (sha256.Sum256 data) = inl (r, s)
    /\ signature = wire_signature r s
    /\ forallb is_hex_digit (String.list_ascii_of_string signature) = true
    /\ String.length signature = (2 * (big.byte_len r + big.byte_len s))%nat
    /\ (4 <= String.length signature <= 128)%nat.
Proof.
  intros (r & s & Hs & ->)%signData_wire. exists r, s.
  split; [exact Hs|]. split; [reflexivity|].
  split; [apply wire_signature_hex|].
  apply Sign_bounds in Hs as [Hr Hs]. by apply wire_signature_bounds.
Qed.

(** A signature whose numbers both take 32 bytes. *)
Lemma Sign_nonce_0 :
  ecdsa.Sign (Some nonce_0) providers.createHardcodedKeyPair
    (sha256.Sum256 (bytes_of_string "test-data"))
  = inl (0x100a889f9f270c23e5b0bf5eb49ae8e9c086d057dbcf0b5d9d94bfa79d77ddfb,
         0x7c51e6eabd1aae3f692cc8948bc564f705f86eee1b7f02b52127f2c640e319eb).
Proof. fixed_key. vm_compute. reflexivity. Qed.

Lemma signData_nonce_0 :
  exists signature,
    providers.signData (Some nonce_0) providers.createHardcodedKeyPair
      (bytes_of_string "test-data") = (signature, None).
Proof. unfold providers.signData. rewrite Sign_nonce_0. by eexists. Qed.

Lemma signData_signature_shape_witness :
  exists signature r s,
    providers.signData (Some nonce_0) providers.createHardcodedKeyPair
      (bytes_of_string "test-data") = (signature, None)
    /\ signature = wire_signature r s
    /\ (4 <= String.length signature <= 128)%nat.
Proof.
  destruct signData_nonce_0 as [signature H].
  destruct (signData_signature_shape _ _ _ _ H) as (r & s & _ & E & _ & _ & L).
  exists signature, r, s. auto.
Defined.

(** X2. [VerifyIdentityWithEntry] returns no error on a signature that
    [signData] has produced, whatever the identity and the message: the
    outcome is a verdict, not a format error, also when the two halves are
    not the numbers that were signed. *)
Theorem signData_signature_never_malformed
    (rnd : option Z) (priv : ecdsa.PrivateKey) (data : bytes)
    (signature : string) (identity : identities.Identity) (message : bytes) :
  providers.signData rnd priv data = (signature, None) ->
  wellformed_signature signature = true
  /\ (legacy_provider.VerifyIdentityWithEntry identity message signature).2
     = None.
Proof.
  intros (r & s & Hs & ->)%signData_wire.
  apply Sign_bounds in Hs as [[Hr _] [Hs _]].
  pose proof (wire_signature_wellformed r s Hr Hs) as Hw.
  split; [exact Hw|].
  unfold wellformed_signature in Hw. apply andb_true_iff in Hw as [H1 H2].
  apply SetString_hex_number in H1 as [x1 E1].
  apply SetString_hex_number in H2 as [x2 E2].
  unfold legacy_provider.VerifyIdentityWithEntry. by rewrite E1, E2.
Qed.

Lemma signData_signature_never_malformed_witness :
  exists signature,
    providers.signData (Some nonce_0) providers.createHardcodedKeyPair
      (bytes_of_string "test-data") = (signature, None)
    /\ (legacy_provider.VerifyIdentityWithEntry carol [] signature).2 = None.
Proof.
  destruct signData_nonce_0 as [signature H]. exists signature.
  split; [exact H|].
  exact (proj2 (signData_signature_never_malformed _ _ _ _ carol [] H)).
Defined.

Lemma scan_digits_app (a t : string) (acc : Z) :
  big.scan_digits 16 acc (a +:+ t)
  = match big.scan_digits 16 acc a with
    | Some v => big.scan_digits 16 v t
    | None => None
    end.
Proof.
  revert acc. induction a as [|c a IH]; intros acc; [reflexivity|].
  change (String c a +:+ t) with (String c (a +:+ t)).
  cbn [big.scan_digits]. destruct (big.digit_val c) as [d|]; [|reflexivity].
  destruct (d <? 16); [apply IH|reflexivity].
Qed.

Lemma digit_val_nonneg (c : ascii) (d : Z) : big.digit_val c = Some d -> 0 <= d.
Proof.
  unfold big.digit_val. repeat case_match; intros [= <-]; lia.
Qed.

Lemma scan_digits_lower (t : string) (acc v : Z) :
  0 <= acc -> big.scan_digits 16 acc t = Some v ->
  acc * 16 ^ Z.of_nat (String.length t) <= v.
Proof.
  revert acc. induction t as [|c t IH]; intros acc Hacc H.
  - simpl in *. injection H as <-. lia.
  - cbn [big.scan_digits] in H.
    destruct (big.digit_val c) as [d|] eqn:Ed; [|discriminate].
    destruct (d <? 16); [|discriminate].
    pose proof (digit_val_nonneg _ _ Ed).
    apply IH in H; [|lia].
    cbn [String.length]. rewrite Nat2Z.inj_succ, Z.pow_succ_r by lia.
    assert (0 <= 16 ^ Z.of_nat (String.length t)) by (apply Z.pow_nonneg; lia).
    nia.
Qed.

Lemma SetString_digits (s : string) :
  s <> "" ->
  forallb is_hex_digit (String.list_ascii_of_string s) = true ->
  big.SetString s 16 = big.scan_digits 16 0 s.
Proof.
  destruct s as [|c s]; [done|]. intros _ H.
  cbn [String.list_ascii_of_string forallb] in H.
  apply andb_true_iff in H as [Hc _].
  by rewrite SetString_cons, (is_hex_digit_not_sign c Hc).
Qed.

Lemma Bytes_nonempty (x : Z) : 0 < x -> big.Bytes x <> [].
Proof.
  intros Hx E. apply (f_equal length) in E. rewrite Bytes_length in E.
  pose proof (byte_len_pos x Hx). simpl in E. lia.
Qed.

Lemma SetString_hex_Bytes (x : Z) :
  0 < x -> big.SetString (hex.EncodeToString (big.Bytes x)) 16 = Some x.
Proof.
  intros Hx. rewrite SetString_hex by (by apply Bytes_nonempty).
  rewrite SetBytes_Bytes by lia. reflexivity.
Qed.

(** The two halves of a natural-width signature are the numbers that were
    written exactly when these take the same number of bytes. *)
Lemma wire_signature_numbers_iff (r s : Z) :
  0 < r -> 0 < s ->
  signature_numbers (wire_signature r s) = Some (r, s)
  <-> big.byte_len r = big.byte_len s.
Proof.
  intros Hr Hs.
  pose proof (byte_len_pos r Hr) as Lr. pose proof (byte_len_pos s Hs) as Ls.
  unfold signature_numbers. rewrite wire_signature_length.
  replace ((2 * big.byte_len r + 2 * big.byte_len s) / 2)%nat
    with (big.byte_len r + big.byte_len s)%nat
    by (rewrite <- Nat.mul_add_distr_l, Nat.mul_comm, Nat.div_mul; lia).
  unfold wire_signature.
  set (A := hex.EncodeToString (big.Bytes r)).
  set (B := hex.EncodeToString (big.Bytes s)).
  assert (LA : String.length A = (2 * big.byte_len r)%nat)
    by (unfold A; by rewrite hex_length, Bytes_length).
  assert (LB : String.length B = (2 * big.byte_len s)%nat)
    by (unfold B; by rewrite hex_length, Bytes_length).
  assert (DA : forallb is_hex_digit (String.list_ascii_of_string A) = true)
    by apply hex_all_digits.
  assert (DB : forallb is_hex_digit (String.list_ascii_of_string B) = true)
    by apply hex_all_digits.
  assert (VA : big.scan_digits 16 0 A = Some r).
  { rewrite <- SetString_digits; [by apply SetString_hex_Bytes| |exact DA].
    intros E. rewrite E in LA. simpl in LA. lia. }
  destruct (Nat.lt_trichotomy (big.byte_len r) (big.byte_len s))
    as [Hlt|[Heq|Hgt]].
  - (* the first half runs into the digits of s *)
    split; [|lia]. intros H. exfalso.
    replace (big.byte_len r + big.byte_len s)%nat
      with (String.length A + (big.byte_len s - big.byte_len r))%nat in H
      by lia.
    rewrite slice_to_beyond in H.
    set (t := slice_to (big.byte_len s - big.byte_len r) B) in H.
    assert (Lt : String.length t = (big.byte_len s - big.byte_len r)%nat)
      by (unfold t, slice_to; apply substring_length; lia).
    rewrite SetString_digits in H.
    + rewrite scan_digits_app, VA in H.
      destruct (big.scan_digits 16 r t) as [v|] eqn:Ev; [|discriminate].
      apply scan_digits_lower in Ev; [|lia]. rewrite Lt in Ev.
      assert (16 ^ 1 <= 16 ^ Z.of_nat (big.byte_len s - big.byte_len r))
        by (apply Z.pow_le_mono_r; lia).
      destruct (big.SetString _ 16); [|discriminate].
      injection H as -> _. nia.
    + intros E. apply (f_equal String.length) in E.
      rewrite string_length_app in E. simpl in E. lia.
    + rewrite string_forallb_app, DA. simpl. by apply substring_forallb.
  - split; [intros _; exact Heq|]. intros _.
    replace (big.byte_len r + big.byte_len s)%nat with (String.length A)
      by lia.
    rewrite slice_to_app, slice_from_app. unfold A, B.
    by rewrite !SetString_hex_Bytes.
  - (* the first half stops short of the digits of r *)
    split; [|lia]. intros H. exfalso.
    rewrite slice_to_prefix in H by lia.
    set (k := (big.byte_len r + big.byte_len s)%nat) in H.
    set (h := slice_to k A) in H. set (t := slice_from k A).
    assert (EA : A = h +:+ t) by (apply slice_split; lia).
    assert (Lh : String.length h = k)
      by (unfold h, slice_to; apply substring_length; lia).
    assert (Lt : String.length t = (String.length A - k)%nat)
      by (unfold t, slice_from; apply substring_length; lia).
    rewrite SetString_digits in H.
    + destruct (big.scan_digits 16 0 h) as [v|] eqn:Ev; [|discriminate].
      destruct (big.SetString _ 16); [|discriminate].
      injection H as -> _.
      rewrite EA, scan_digits_app, Ev in VA.
      apply scan_digits_lower in VA; [|lia]. rewrite Lt in VA.
      assert (16 ^ 1 <= 16 ^ Z.of_nat (String.length A - k))
        by (apply Z.pow_le_mono_r; lia).
      nia.
    + intros E. rewrite E in Lh. simpl in Lh. lia.
    + by apply substring_forallb.
Qed.

(** X3. The wire format of the code round-trips exactly for signatures
    whose [r] and [s] take the same number of bytes. For a signature that
    [signData] returns, [VerifyIdentityWithEntry] verifies the numbers
    [(r', s')] it reads from the two halves of the string, and these are
    the signed [(r, s)] if and only if [r] and [s] have equal byte
    lengths. *)
Theorem signData_roundtrip_iff_equal_width
    (rnd : option Z) (priv : ecdsa.PrivateKey) (data : bytes)
    (signature : string) (r s : Z)
    (identity : identities.Identity) (message : bytes) :
  providers.signData rnd priv data = (signature, None) ->
  ecdsa.Sign rnd priv (sha256.Sum256 data) = inl (r, s) ->
  exists r' s' : Z,
    signature_numbers signature = Some (r', s')
    /\ legacy_provider.VerifyIdentityWithEntry identity message signature
       = (ecdsa.Verify (identities.PublicKey identity)
            (sha256.Sum256 message) r' s', None)
    /\ ((r', s') = (r, s) <-> big.byte_len r = big.byte_len s).
Proof.
  intros Hsig Hsign.
  apply signData_wire in Hsig as (r0 & s0 & Hsign' & ->).
  rewrite Hsign in Hsign'. injection Hsign' as <- <-.
  apply Sign_bounds in Hsign as [[Hr _] [Hs _]].
  pose proof (wire_signature_wellformed r s Hr Hs) as Hw.
  pose proof (wire_signature_numbers_iff r s Hr Hs) as Hiff.
  unfold wellformed_signature in Hw. apply andb_true_iff in Hw as [H1 H2].
  apply SetString_hex_number in H1 as [r' E1].
  apply SetString_hex_number in H2 as [s' E2].
  exists r', s'.
  assert (Hn : signature_numbers (wire_signature r s) = Some (r', s'))
    by (unfold signature_numbers; by rewrite E1, E2).
  split; [exact Hn|]. split.
  - unfold legacy_provider.VerifyIdentityWithEntry. by rewrite E1, E2.
  - rewrite <- Hiff, Hn. split; [intros ->; reflexivity|].
    intros [= -> ->]. reflexivity.
Qed.

Lemma signData_roundtrip_iff_equal_width_witness :
  exists signature r s,
    providers.signData (Some nonce_0) providers.createHardcodedKeyPair
      (bytes_of_string "test-data") = (signature, None)
    /\ ecdsa.Sign (Some nonce_0) providers.createHardcodedKeyPair
         (sha256.Sum256 (bytes_of_string "test-data")) = inl (r, s)
    /\ big.byte_len r = big.byte_len s
    /\ legacy_provider.VerifyIdentityWithEntry alice
         (bytes_of_string "test-data") signature
       = (ecdsa.Verify (identities.PublicKey alice)
            (sha256.Sum256 (bytes_of_string "test-data")) r s, None).
Proof.
  destruct signData_nonce_0 as [signature H].
  eexists signature, _, _. split; [exact H|]. split; [exact Sign_nonce_0|].
  assert (Hl : big.byte_len
                 0x100a889f9f270c23e5b0bf5eb49ae8e9c086d057dbcf0b5d9d94bfa79d77ddfb
               = big.byte_len
                   0x7c51e6eabd1aae3f692cc8948bc564f705f86eee1b7f02b52127f2c640e319eb)
    by (vm_compute; reflexivity).
  split; [exact Hl|].
  destruct (signData_roundtrip_iff_equal_width _ _ _ _ _ _ alice
              (bytes_of_string "test-data") H Sign_nonce_0)
    as (r' & s' & _ & Hv & Hiff).
  apply Hiff in Hl. injection Hl as -> ->. exact Hv.
Defined.

(** ** The legacy provider: fixed-width signatures *)

(** X4. [verifyECDSASignature] takes signatures of exactly 64 bytes, any
    other length being an error, and reads [r] and [s] as the big-endian
    values of the two halves: numbers below [2^256] written on 32 bytes
    each are read back unchanged, leading zero bytes included. *)
Theorem verifyECDSASignature_fixed_width
    (publicKey : ecdsa.PublicKey) (dataHash signature : bytes) (r s : Z) :
  0 <= r < 2 ^ 256 -> 0 <= s < 2 ^ 256 ->
  legacy_provider.verifyECDSASignature publicKey dataHash
    (big.be_bytes 32 r ++ big.be_bytes 32 s)
  = (ecdsa.Verify publicKey dataHash r s, None)
  /\ (length signature <> 64%nat ->
      legacy_provider.verifyECDSASignature publicKey dataHash signature
      = (false, Some "invalid signature length")).
Proof.
  intros Hr Hs. unfold legacy_provider.verifyECDSASignature. split.
  - rewrite length_app, !be_bytes_length. cbn [Nat.eqb negb].
    rewrite take_app_length' by (symmetry; apply be_bytes_length).
    rewrite drop_app_length' by (symmetry; apply be_bytes_length).
    rewrite !SetBytes_be_bytes.
    change (256 ^ Z.of_nat 32) with (2 ^ 256).
    by rewrite !Z.mod_small by lia.
  - intros Hl. by apply Nat.eqb_neq in Hl as ->.
Qed.

Lemma verifyECDSASignature_fixed_width_witness :
  legacy_provider.verifyECDSASignature (ecdsa.Public rfc6979_key) [] 
    (big.be_bytes 32 1 ++ big.be_bytes 32 (2 ^ 255))
  = (ecdsa.Verify (ecdsa.Public rfc6979_key) [] 1 (2 ^ 255), None)
  /\ legacy_provider.verifyECDSASignature (ecdsa.Public rfc6979_key) []
       (big.Bytes 1 ++ big.Bytes (2 ^ 255))
     = (false, Some "invalid signature length").
Proof.
  destruct (verifyECDSASignature_fixed_width (ecdsa.Public rfc6979_key) []
              (big.Bytes 1 ++ big.Bytes (2 ^ 255)) 1 (2 ^ 255))
    as [H1 H2]; [lia|lia|].
  split; [exact H1|]. apply H2. vm_compute. discriminate.
Defined.

Lemma fromHexChar_is_hex_digit (c : ascii) :
  match hex.fromHexChar c with Some _ => true | None => false end
  = is_hex_digit c.
Proof. destruct c as [[] [] [] [] [] [] [] []]; reflexivity. Qed.

(** [hex.DecodeString] succeeds exactly on the strings of an even number
    of hexadecimal digits, and yields half as many bytes. *)
Lemma DecodeString_Some_fuel (n : nat) (s : string) (b : bytes) :
  (String.length s <= n)%nat ->
  hex.DecodeString s = Some b ->
  String.length s = (2 * length b)%nat
  /\ forallb is_hex_digit (String.list_ascii_of_string s) = true.
Proof.
  revert s b. induction n as [|n IH]; intros [|c1 [|c2 s]] b Hn H;
    simpl in Hn; try lia; try discriminate.
  - injection H as <-. by split.
  - injection H as <-. by split.
  - cbn [hex.DecodeString] in H.
    pose proof (fromHexChar_is_hex_digit c1) as D1.
    pose proof (fromHexChar_is_hex_digit c2) as D2.
    destruct (hex.fromHexChar c1); [|discriminate].
    destruct (hex.fromHexChar c2); [|discriminate].
    destruct (hex.DecodeString s) as [tl|] eqn:E; [|discriminate].
    injection H as <-.
    destruct (IH s tl ltac:(lia) E) as [Hl Hd].
    cbn [String.length length String.list_ascii_of_string forallb].
    rewrite <- D1, <- D2, Hd, Hl. split; [lia|reflexivity].
Qed.

Lemma DecodeString_Some (s : string) (b : bytes) :
  hex.DecodeString s = Some b ->
  String.length s = (2 * length b)%nat
  /\ forallb is_hex_digit (String.list_ascii_of_string s) = true.
Proof. apply (DecodeString_Some_fuel (String.length s)). lia. Qed.

Lemma DecodeString_is_Some_fuel (n : nat) (s : string) :
  (String.length s <= n)%nat ->
  Nat.even (String.length s) = true ->
  forallb is_hex_digit (String.list_ascii_of_string s) = true ->
  is_Some (hex.DecodeString s).
Proof.
  revert s. induction n as [|n IH]; intros [|c1 [|c2 s]] Hn He Hd;
    simpl in Hn; try lia; try discriminate.
  - by eexists.
  - by eexists.
  - cbn [String.list_ascii_of_string forallb] in Hd.
    apply andb_true_iff in Hd as [D1 Hd]. apply andb_true_iff in Hd as [D2 Hd].
    rewrite <- fromHexChar_is_hex_digit in D1, D2.
    cbn [hex.DecodeString].
    destruct (hex.fromHexChar c1); [|discriminate].
    destruct (hex.fromHexChar c2); [|discriminate].
    destruct (IH s ltac:(lia) He Hd) as [tl ->]. by eexists.
Qed.

(** [hex.DecodeString] succeeds exactly on the strings of an even number
    of hexadecimal digits. *)
Lemma DecodeString_is_Some (s : string) :
  is_Some (hex.DecodeString s)
  <-> Nat.even (String.length s) = true
      /\ forallb is_hex_digit (String.list_ascii_of_string s) = true.
Proof.
  split.
  - intros [b [Hl Hd]%DecodeString_Some]. split; [|exact Hd].
    rewrite Hl. apply Nat.even_spec. by exists (length b).
  - intros [He Hd]. by apply (DecodeString_is_Some_fuel (String.length s)).
Qed.

(** X5. The legacy provider's [VerifyIdentity] returns an error, and
    [false], exactly when [Signatures.PublicKey] is not a string of 128
    hexadecimal digits. When it is, the result carries no error and is
    the ECDSA verdict on the two 32-byte halves of the decoded signature,
    for the digest of the id followed by [Signatures.ID]. *)
Theorem legacy_VerifyIdentity_error_iff (identity : identities.Identity) :
  let signature := identities.SigPublicKey (identities.Signatures identity) in
  let data :=
    bytes_of_string
      (identities.ID identity
       +:+ identities.SigID (identities.Signatures identity)) in
  let wellformed :=
    Nat.eqb (String.length signature) 128
    && forallb is_hex_digit (String.list_ascii_of_string signature) in
  (wellformed = true ->
   exists sig : bytes,
     hex.DecodeString signature = Some sig
     /\ length sig = 64%nat
     /\ legacy_provider.VerifyIdentity identity
        = (ecdsa.Verify (identities.PublicKey identity) (sha256.Sum256 data)
             (big.SetBytes (take 32 sig)) (big.SetBytes (drop 32 sig)), None))
  /\ (wellformed = false ->
      (legacy_provider.VerifyIdentity identity).1 = false
      /\ (legacy_provider.VerifyIdentity identity).2 <> None).
Proof.
  intros signature data wellformed. subst wellformed.
  unfold legacy_provider.VerifyIdentity. fold signature. fold data.
  pose proof (DecodeString_is_Some signature) as Hiff.
  destruct (hex.DecodeString signature) as [sig|] eqn:E.
  - destruct (DecodeString_Some _ _ E) as [Hl Hd]. rewrite Hd, andb_true_r.
    unfold legacy_provider.verifyECDSASignature.
    destruct (Nat.eqb_spec (String.length signature) 128) as [H128|H128].
    + assert (length sig = 64%nat) as Hs by lia.
      rewrite Hs. cbn [Nat.eqb negb]. split; [|discriminate].
      intros _. by exists sig.
    + split; [discriminate|]. intros _.
      destruct (Nat.eqb_spec (length sig) 64) as [H64|H64]; [lia|].
      by split.
  - split; [|by split]. intros [H128 Hd]%andb_true_iff.
    apply Nat.eqb_eq in H128.
    assert (is_Some (None : option bytes)) as [? ?]; [|discriminate].
    apply Hiff. by rewrite H128.
Qed.

Lemma legacy_VerifyIdentity_error_iff_witness :
  (legacy_provider.VerifyIdentity alice).1 = false
  /\ (legacy_provider.VerifyIdentity alice).2 <> None.
Proof.
  apply (proj2 (legacy_VerifyIdentity_error_iff alice)). reflexivity.
Defined.

(** ** The canonical bytes of an entry *)

Lemma flat_map_encode_string (l : list string) :
  flat_map dagcbor.encode_node (map NString l)
  = flat_map dagcbor.encode_string l.
Proof.
  induction l as [|s l IH]; [reflexivity|]. cbn [map flat_map].
  by rewrite IH.
Qed.

Lemma entry_node_bytes (entry : oplog.Entry) :
  dagcbor.encode_node (oplog.entry_node entry)
  =
    dagcbor.head 5 9
    ++ dagcbor.encode_string "V" ++ dagcbor.encode_int (oplog.V entry)
    ++ dagcbor.encode_string "ID" ++ dagcbor.encode_string (oplog.ID entry)
    ++ dagcbor.encode_string "Key" ++ dagcbor.encode_string (oplog.Key entry)
    ++ dagcbor.encode_string "Next"
    ++ (dagcbor.head 4 (Z.of_nat (length (oplog.Next entry)))
        ++ flat_map dagcbor.encode_string (oplog.Next entry))
    ++ dagcbor.encode_string "Refs"
    ++ (dagcbor.head 4 (Z.of_nat (length (oplog.Refs entry)))
        ++ flat_map dagcbor.encode_string (oplog.Refs entry))
    ++ dagcbor.encode_string "Clock"
    ++ (dagcbor.head 5 2
        ++ dagcbor.encode_string "id"
        ++ dagcbor.encode_string (oplog.clock.ID (oplog.Clock entry))
        ++ dagcbor.encode_string "time"
        ++ dagcbor.encode_int (oplog.clock.Time (oplog.Clock entry)))
    ++ dagcbor.encode_string "Payload"
    ++ dagcbor.encode_string (oplog.Payload entry)
    ++ dagcbor.encode_string "Identity"
    ++ dagcbor.encode_string (oplog.Identity entry)
    ++ dagcbor.encode_string "Signature"
    ++ dagcbor.encode_string (oplog.Signature entry).
Proof.
  match goal with
  | |- _ = ?layout =>
      enough (H : forall ee, oplog.Encode entry = Returns ee ->
                             oplog.Bytes ee = layout)
        by exact (H _ (Encode_returns entry))
  end.
  intros ee [= <-].
  rewrite !length_map, !flat_map_encode_string, !app_nil_r. reflexivity.
Qed.

(** X6. [Encode] returns for every entry, with the entry itself and its
    canonical bytes: a CBOR map of nine pairs, the keys in the order V,
    ID, Key, Next, Refs, Clock, Payload, Identity, Signature (shorter keys
    first, keys of equal length bytewise, not the order of the schema),
    the clock a nested map of the two pairs id and time. *)
Theorem Encode_canonical_layout (entry : oplog.Entry) :
  exists ee : oplog.EncodedEntry,
    oplog.Encode entry = Returns ee
    /\ oplog.EncodedEntry_Entry ee = entry
    /\ oplog.Bytes ee
       =
    dagcbor.head 5 9
    ++ dagcbor.encode_string "V" ++ dagcbor.encode_int (oplog.V entry)
    ++ dagcbor.encode_string "ID" ++ dagcbor.encode_string (oplog.ID entry)
    ++ dagcbor.encode_string "Key" ++ dagcbor.encode_string (oplog.Key entry)
    ++ dagcbor.encode_string "Next"
    ++ (dagcbor.head 4 (Z.of_nat (length (oplog.Next entry)))
        ++ flat_map dagcbor.encode_string (oplog.Next entry))
    ++ dagcbor.encode_string "Refs"
    ++ (dagcbor.head 4 (Z.of_nat (length (oplog.Refs entry)))
        ++ flat_map dagcbor.encode_string (oplog.Refs entry))
    ++ dagcbor.encode_string "Clock"
    ++ (dagcbor.head 5 2
        ++ dagcbor.encode_string "id"
        ++ dagcbor.encode_string (oplog.clock.ID (oplog.Clock entry))
        ++ dagcbor.encode_string "time"
        ++ dagcbor.encode_int (oplog.clock.Time (oplog.Clock entry)))
    ++ dagcbor.encode_string "Payload"
    ++ dagcbor.encode_string (oplog.Payload entry)
    ++ dagcbor.encode_string "Identity"
    ++ dagcbor.encode_string (oplog.Identity entry)
    ++ dagcbor.encode_string "Signature"
    ++ dagcbor.encode_string (oplog.Signature entry).
Proof.
  eexists. split; [apply Encode_returns|]. split; [reflexivity|].
  cbn [oplog.Bytes]. apply entry_node_bytes.
Qed.

(** ** The canonical encoding is injective *)





Lemma bytes_of_string_length (s : string) :
  length (bytes_of_string s) = String.length s.
Proof.
  unfold bytes_of_string, String.list_byte_of_string.
  rewrite length_map. induction s as [|c s IH]; simpl; [reflexivity|].
  by rewrite IH.
Qed.










(** ** The content identifier of an entry *)

Lemma Sum256_length (msg : bytes) : length (sha256.Sum256 msg) = 32%nat.
Proof.
  unfold sha256.Sum256.
  destruct (sha256.blocks _ _ _) as [[[[[[[a b] c] d] e] f] g] h].
  cbn [flat_map]. unfold sha256.word_bytes.
  rewrite !length_app, !be_bytes_length. reflexivity.
Qed.

(** X8. The content identifier of an encoded entry is 36 bytes: the
    version 1, the DAG-CBOR codec tag 0x71, the hash code 0x12 of
    SHA-256, the digest length 32, and the SHA-256 digest of the
    canonical bytes. It is a function of the bytes alone. *)
Theorem Encode_cid_shape (entry : oplog.Entry) :
  exists ee : oplog.EncodedEntry,
    oplog.Encode entry = Returns ee
    /\ oplog.CID ee
       = [x01; x71; x12; x20]%byte ++ sha256.Sum256 (oplog.Bytes ee)
    /\ length (oplog.CID ee) = 36%nat.
Proof.
  eexists. split; [apply Encode_returns|]. cbn [oplog.CID oplog.Bytes].
  assert (E : forall digest : bytes,
    cid.NewCidV1 cid.DagCBOR
      (mh.uvarint mh.SHA2_256 ++ mh.uvarint 32 ++ digest)
    = [x01; x71; x12; x20]%byte ++ digest) by reflexivity.
  rewrite E. split; [reflexivity|].
  rewrite length_app, Sum256_length. reflexivity.
Qed.

(** ** What [NewEntry] stores *)

Lemma head_length_pos (m n : Z) : (1 <= length (dagcbor.head m n))%nat.
Proof. unfold dagcbor.head. repeat case_match; simpl; lia. Qed.

Lemma encode_string_length (s : string) :
  (1 + String.length s <= length (dagcbor.encode_string s))%nat.
Proof.
  unfold dagcbor.encode_string.
  rewrite length_app, bytes_of_string_length.
  pose proof (head_length_pos 3 (Z.of_nat (String.length s))). lia.
Qed.

(** Setting a non-empty signature makes the canonical bytes longer. *)
Lemma signature_lengthens (entry : oplog.Entry) (signature : string) :
  signature <> "" ->
  (length (dagcbor.encode_node
             (oplog.entry_node (oplog.set_Signature "" entry)))
   < length (dagcbor.encode_node
               (oplog.entry_node (oplog.set_Signature signature entry))))%nat.
Proof.
  intros Hs. rewrite !entry_node_bytes.
  cbn [oplog.set_Signature oplog.ID oplog.Payload oplog.Next oplog.Refs
       oplog.Clock oplog.V oplog.Key oplog.Identity oplog.Signature].
  rewrite !length_app.
  pose proof (encode_string_length signature).
  assert (String.length signature <> 0%nat)
    by (intros E; by apply string_length_0 in E).
  change (length (dagcbor.encode_string "")) with 1%nat. lia.
Qed.

(** X9. The entry [NewEntry] returns is a version-2 entry without links,
    with the id, payload and clock given, and the key and the hash of the
    identity. The bytes stored next to it are the input of the signature,
    not the encoding of the entry returned: once the signature is set,
    encoding the returned entry gives other, longer bytes. *)
Theorem NewEntry_bytes_precede_signature
    (identity : identities.Identity) (rnd : option Z)
    (id payload : string) (clock : oplog.clock.Clock)
    (ee signed : oplog.EncodedEntry) :
  oplog.NewEntry (Some identity) rnd id payload clock = Returns ee ->
  oplog.Signature (oplog.EncodedEntry_Entry ee) <> "" ->
  oplog.Encode (oplog.EncodedEntry_Entry ee) = Returns signed ->
  oplog.EncodedEntry_Entry ee
  = oplog.mkEntry id payload [] [] clock 2 (identities.PublicKeyHex identity)
      (identities.Identity_ identity)
      (oplog.Signature (oplog.EncodedEntry_Entry ee))
  /\ identities.Sign rnd identity (oplog.Bytes ee)
     = (oplog.Signature (oplog.EncodedEntry_Entry ee), None)
  /\ (length (oplog.Bytes ee) < length (oplog.Bytes signed))%nat
  /\ oplog.Bytes signed <> oplog.Bytes ee.
Proof.
  intros H Hne Hsigned.
  destruct (NewEntry_inv _ _ _ _ _ _ H) as (pre & signature & Hpre & Hsign & ->).
  set (U := oplog.mkEntry id payload [] [] clock 2
              (identities.PublicKeyHex identity)
              (identities.Identity_ identity) "") in *.
  cbn [oplog.EncodedEntry_Entry oplog.Bytes oplog.CID] in *.
  change (signature <> "") in Hne.
  assert (Hp : oplog.Bytes pre = dagcbor.encode_node (oplog.entry_node U)).
  { rewrite Encode_returns in Hpre. by injection Hpre as <-. }
  assert (Hs : oplog.Bytes signed
               = dagcbor.encode_node
                   (oplog.entry_node (oplog.set_Signature signature U))).
  { rewrite Encode_returns in Hsigned. by injection Hsigned as <-. }
  assert (Hlt := signature_lengthens U signature Hne).
  change (oplog.set_Signature "" U) with U in Hlt.
  rewrite <- Hp, <- Hs in Hlt.
  split; [reflexivity|]. split; [exact Hsign|]. split; [exact Hlt|].
  intros E. rewrite E in Hlt. lia.
Qed.

(** A signature of [identities.Sign] has 128 digits. *)
Lemma identities_Sign_length (rnd : option Z) (i : identities.Identity)
    (data : bytes) (signature : string) :
  identities.Sign rnd i data = (signature, None) ->
  String.length signature = 128%nat.
Proof.
  unfold identities.Sign. destruct (identities.PrivateKey i); [|discriminate].
  destruct (ecdsa.Sign _ _ _) as [[r s]|]; [|discriminate].
  intros [= <-]. unfold identities.encode_signature.
  by rewrite string_length_app, !hex_length, !be_bytes_length.
Qed.

Lemma NewEntry_bytes_precede_signature_witness :
  exists ee signed,
    oplog.NewEntry (Some alice) (Some nonce_0) "log-1" "hello" clock_1
    = Returns ee
    /\ oplog.Encode (oplog.EncodedEntry_Entry ee) = Returns signed
    /\ oplog.Bytes signed <> oplog.Bytes ee.
Proof.
  destruct NewEntry_hello_verifies as (ee & H & _).
  eexists ee, _. split; [exact H|]. split; [apply Encode_returns|].
  assert (Hne : oplog.Signature (oplog.EncodedEntry_Entry ee) <> "").
  { destruct (NewEntry_inv _ _ _ _ _ _ H) as (pre & sig & _ & Hs & ->).
    apply identities_Sign_length in Hs. cbn [oplog.EncodedEntry_Entry
      oplog.set_Signature oplog.Signature]. intros E. rewrite E in Hs.
    discriminate Hs. }
  exact (proj2 (proj2 (proj2
    (NewEntry_bytes_precede_signature alice _ _ _ _ ee _ H Hne
       (Encode_returns _))))).
Defined.

(** ** Verification of entries with the legacy provider *)

(** X10. With the legacy provider registered for the type of the
    identity, [VerifyEntrySignature] returns the ECDSA verdict on the two
    numbers read from the halves of the stored signature, for the digest
    of the stored bytes and the public key of the identity, and [false]
    when the halves are not two numbers. Nothing else of the entry or of
    the identity is looked at; in particular an entry without signature
    is never accepted. *)
Theorem VerifyEntrySignature_legacy_verdict
    (reg : provider_registry.registry) (i : identities.Identity)
    (ee : oplog.EncodedEntry) :
  reg !! identities.Type_ i = Some legacy_provider.NewPublicKeyIdentityProvider ->
  let signature := oplog.Signature (oplog.EncodedEntry_Entry ee) in
  oplog.VerifyEntrySignature reg (Some i) ee
  = Returns
      match signature_numbers signature with
      | Some (r, s) =>
          ecdsa.Verify (identities.PublicKey i)
            (sha256.Sum256 (oplog.Bytes ee)) r s
      | None => false
      end
  /\ (wellformed_signature signature = false ->
      oplog.VerifyEntrySignature reg (Some i) ee = Returns false)
  /\ (signature = "" ->
      oplog.VerifyEntrySignature reg (Some i) ee = Returns false).
Proof.
  intros Hreg signature.
  assert (Hv : oplog.VerifyEntrySignature reg (Some i) ee
    = Returns
        match signature_numbers signature with
        | Some (r, s) =>
            ecdsa.Verify (identities.PublicKey i)
              (sha256.Sum256 (oplog.Bytes ee)) r s
        | None => false
        end).
  { unfold oplog.VerifyEntrySignature, provider_registry.GetIdentityProvider.
    rewrite Hreg. cbn [provider_registry.VerifyIdentityWithEntry
      legacy_provider.NewPublicKeyIdentityProvider].
    unfold legacy_provider.VerifyIdentityWithEntry, signature_numbers.
    fold signature. cbv zeta.
    destruct (big.SetString (slice_to _ _) 16); [|reflexivity].
    destruct (big.SetString (slice_from _ _) 16); reflexivity. }
  assert (Hw : wellformed_signature signature = false ->
               signature_numbers signature = None).
  { unfold wellformed_signature, signature_numbers.
    pose proof (SetString_hex_number
      (slice_to (String.length signature / 2) signature)) as H1.
    pose proof (SetString_hex_number
      (slice_from (String.length signature / 2) signature)) as H2.
    destruct (big.SetString (slice_to _ _) 16) as [r|]; [|done].
    destruct (big.SetString (slice_from _ _) 16) as [s|]; [|done].
    intros [H|H]%andb_false_iff; apply not_true_iff_false in H; destruct H;
      [apply H1|apply H2]; by eexists. }
  split; [exact Hv|]. split.
  - intros H. rewrite Hv, (Hw H). reflexivity.
  - intros H. rewrite Hv, H. reflexivity.
Qed.

Lemma VerifyEntrySignature_legacy_verdict_witness :
  oplog.VerifyEntrySignature legacy_registry (Some alice)
    (oplog.mkEncodedEntry (oplog.set_Signature "" sample_entry) [] [])
  = Returns false.
Proof.
  exact (proj2 (proj2 (VerifyEntrySignature_legacy_verdict legacy_registry
    alice (oplog.mkEncodedEntry (oplog.set_Signature "" sample_entry) [] [])
    eq_refl)) eq_refl).
Defined.

(** ** The legacy provider: signing and verifying *)

Lemma hex_encode_app (a b : bytes) :
  hex.EncodeToString (a ++ b)
  = hex.EncodeToString a +:+ hex.EncodeToString b.
Proof.
  induction a as [|c a IH]; [reflexivity|].
  cbn [app hex.EncodeToString]. by rewrite IH.
Qed.

Lemma SignIdentity_wire (rnd : option Z) (data : string)
    (signer : identities.Identity) (signature : string) :
  legacy_provider.SignIdentity rnd data signer = (signature, None) ->
  exists priv r s,
    identities.PrivateKey signer = Some priv
    /\ ecdsa.Sign rnd priv (sha256.Sum256 (bytes_of_string data)) = inl (r, s)
    /\ signature = wire_signature r s.
Proof.
  unfold legacy_provider.SignIdentity.
  destruct (identities.PrivateKey signer) as [priv|]; [|discriminate].
  destruct (ecdsa.Sign rnd priv _) as [[r s]|e] eqn:E; [|discriminate].
  intros [= <-]. by exists priv, r, s.
Qed.

(** X11. A signature of [SignIdentity] has the format of [signData]: it
    never makes [VerifyIdentityWithEntry] return a format error, and the
    numbers read back from its two halves are the signed [(r, s)] exactly
    when [r] and [s] take the same number of bytes; then the result is
    the ECDSA verdict on [(r, s)]. *)
Theorem SignIdentity_roundtrip_iff_equal_width
    (rnd : option Z) (data : string) (signer : identities.Identity)
    (signature : string) (verifier : identities.Identity) (message : bytes) :
  legacy_provider.SignIdentity rnd data signer = (signature, None) ->
  exists (priv : ecdsa.PrivateKey) (r s : Z),
    identities.PrivateKey signer = Some priv
    /\ ecdsa.Sign rnd priv (sha256.Sum256 (bytes_of_string data)) = inl (r, s)
    /\ providers.signData rnd priv (bytes_of_string data) = (signature, None)
    /\ (legacy_provider.VerifyIdentityWithEntry verifier message signature).2
       = None
    /\ (signature_numbers signature = Some (r, s)
        <-> big.byte_len r = big.byte_len s)
    /\ (big.byte_len r = big.byte_len s ->
        legacy_provider.VerifyIdentityWithEntry verifier message signature
        = (ecdsa.Verify (identities.PublicKey verifier)
             (sha256.Sum256 message) r s, None)).
Proof.
  intros (priv & r & s & Hp & Hsign & ->)%SignIdentity_wire.
  exists priv, r, s. split; [exact Hp|]. split; [exact Hsign|].
  split; [unfold providers.signData; by rewrite Hsign|].
  apply Sign_bounds in Hsign as [[Hr _] [Hs _]].
  pose proof (wire_signature_wellformed r s Hr Hs) as Hw.
  pose proof (wire_signature_numbers_iff r s Hr Hs) as Hiff.
  unfold wellformed_signature in Hw. apply andb_true_iff in Hw as [H1 H2].
  apply SetString_hex_number in H1 as [r' E1].
  apply SetString_hex_number in H2 as [s' E2].
  unfold legacy_provider.VerifyIdentityWithEntry. rewrite E1, E2.
  split; [reflexivity|]. split; [exact Hiff|].
  intros Hl. apply Hiff in Hl. unfold signature_numbers in Hl.
  rewrite E1, E2 in Hl. by injection Hl as -> ->.
Qed.

Lemma SignIdentity_nonce_0 :
  exists signature,
    legacy_provider.SignIdentity (Some nonce_0) "test-data" alice
    = (signature, None).
Proof.
  unfold legacy_provider.SignIdentity. cbv zeta.
  change (identities.PrivateKey alice)
    with (Some providers.createHardcodedKeyPair).
  cbv beta iota. rewrite Sign_nonce_0. by eexists.
Qed.

Lemma SignIdentity_roundtrip_iff_equal_width_witness :
  exists signature,
    legacy_provider.SignIdentity (Some nonce_0) "test-data" alice
    = (signature, None)
    /\ (legacy_provider.VerifyIdentityWithEntry carol [] signature).2 = None.
Proof.
  destruct SignIdentity_nonce_0 as [signature H]. exists signature.
  split; [exact H|].
  destruct (SignIdentity_roundtrip_iff_equal_width _ _ _ _ carol [] H)
    as (_ & _ & _ & _ & _ & _ & Hv & _).
  exact Hv.
Defined.

Lemma wire_signature_decode (r s : Z) :
  hex.DecodeString (wire_signature r s) = Some (big.Bytes r ++ big.Bytes s).
Proof.
  unfold wire_signature. by rewrite <- hex_encode_app, hex_Decode_Encode.
Qed.

(** X12. The two verifiers of the legacy provider read a signature
    differently. [VerifyIdentity] takes the decoded signature at the
    fixed width of 64 bytes, while [SignIdentity] writes [r] and [s] at
    their natural widths: on a signature of [SignIdentity],
    [VerifyIdentity] gives the ECDSA verdict on the signed [(r, s)] if
    both take 32 bytes, and the error of a wrong length otherwise. *)
Theorem SignIdentity_VerifyIdentity_width
    (rnd : option Z) (data : string) (signer : identities.Identity)
    (priv : ecdsa.PrivateKey) (r s : Z) (identity : identities.Identity) :
  identities.PrivateKey signer = Some priv ->
  ecdsa.Sign rnd priv (sha256.Sum256 (bytes_of_string data)) = inl (r, s) ->
  legacy_provider.SignIdentity rnd data signer
  = (identities.SigPublicKey (identities.Signatures identity), None) ->
  legacy_provider.VerifyIdentity identity
  = if Nat.eqb (big.byte_len r) 32 && Nat.eqb (big.byte_len s) 32 then
      (ecdsa.Verify (identities.PublicKey identity)
         (sha256.Sum256
            (bytes_of_string
               (identities.ID identity
                +:+ identities.SigID (identities.Signatures identity))))
         r s, None)
    else (false, Some "invalid signature length").
Proof.
  intros Hp Hsign Hsig.
  apply SignIdentity_wire in Hsig as (priv' & r' & s' & Hp' & Hsign' & Hw).
  rewrite Hp in Hp'. injection Hp' as <-.
  rewrite Hsign in Hsign'. injection Hsign' as <- <-.
  unfold legacy_provider.VerifyIdentity. rewrite Hw, wire_signature_decode.
  unfold legacy_provider.verifyECDSASignature.
  rewrite length_app, !Bytes_length.
  apply Sign_bounds in Hsign as [[Hr0 Hr] [Hs0 Hs]].
  pose proof order_lt_256_32.
  pose proof (byte_len_le r 32 ltac:(lia)).
  pose proof (byte_len_le s 32 ltac:(lia)).
  destruct (Nat.eqb_spec (big.byte_len r) 32) as [Er|Er];
    [destruct (Nat.eqb_spec (big.byte_len s) 32) as [Es|Es]|]; cbn [andb].
  - rewrite Er, Es. cbn [Nat.add Nat.eqb negb].
    rewrite take_app_length' by (by rewrite Bytes_length).
    rewrite drop_app_length' by (by rewrite Bytes_length).
    by rewrite !SetBytes_Bytes by lia.
  - destruct (Nat.eqb_spec (big.byte_len r + big.byte_len s) 64);
      [lia|reflexivity].
  - destruct (Nat.eqb_spec (big.byte_len r + big.byte_len s) 64);
      [lia|reflexivity].
Qed.

Lemma SignIdentity_VerifyIdentity_width_witness :
  (legacy_provider.VerifyIdentity
     (identities.mkIdentity "alice"
        (ecdsa.Public providers.createHardcodedKeyPair) None
        (identities.mkIdentitySignatures ""
           (wire_signature
              0x100a889f9f270c23e5b0bf5eb49ae8e9c086d057dbcf0b5d9d94bfa79d77ddfb
              0x7c51e6eabd1aae3f692cc8948bc564f705f86eee1b7f02b52127f2c640e319eb))
        "alice-hash" "publickey")).2
  = None.
Proof.
  rewrite (SignIdentity_VerifyIdentity_width (Some nonce_0) "test-data" alice
             providers.createHardcodedKeyPair _ _ _ eq_refl Sign_nonce_0).
  - assert (Nat.eqb
              (big.byte_len
                 0x100a889f9f270c23e5b0bf5eb49ae8e9c086d057dbcf0b5d9d94bfa79d77ddfb)
              32
            && Nat.eqb
                 (big.byte_len
                    0x7c51e6eabd1aae3f692cc8948bc564f705f86eee1b7f02b52127f2c640e319eb)
                 32 = true) as -> by (vm_compute; reflexivity).
    reflexivity.
  - unfold legacy_provider.SignIdentity. cbv zeta.
    change (identities.PrivateKey alice)
      with (Some providers.createHardcodedKeyPair).
    cbv beta iota. rewrite Sign_nonce_0. reflexivity.
Defined.

(** ** The public-key provider: what [CreateIdentity] returns *)

(** X13. [GetId] ignores its argument: it returns, without error, the
    hex-encoded public key of the fixed key pair, 128 digits, which is
    the [PublicKey] of every identity [CreateIdentity] returns. *)
Theorem GetId_is_created_public_key
    (rand : Reader) (id id' : string) (identity : identitytypes.Identity) :
  providers.CreateIdentity rand id = (Some identity, None) ->
  providers.GetId id' = (identitytypes.PublicKey identity, None)
  /\ providers.GetId id' = providers.GetId id
  /\ String.length (identitytypes.PublicKey identity) = 128%nat.
Proof.
  intros (_ & Hk & _)%CreateIdentity_inv. unfold providers.GetId.
  rewrite Hk. split; [reflexivity|]. split; [reflexivity|].
  rewrite hardcoded_public_key_hex. reflexivity.
Qed.

Lemma GetId_is_created_public_key_witness :
  exists identity,
    providers.CreateIdentity (reader_of nonce_0 nonce_1) "alice"
    = (Some identity, None)
    /\ providers.GetId "bob" = (identitytypes.PublicKey identity, None).
Proof.
  destruct CreateIdentity_alice_verifies as (identity & H & _).
  exists identity. split; [exact H|].
  exact (proj1 (GetId_is_created_public_key _ _ "bob" _ H)).
Defined.

(** X14. [CreateIdentity] returns either an identity and no error, or no
    identity and an error, never both and never neither. It fails when
    one of its two signatures fails, the first in the order id, public
    key, or when the encoding of the identity fails, with the error of
    the step that failed; the signature over the public key is not
    attempted after a failure of the first. The identity returned holds
    the id, the fixed key pair, the provider type and the two
    signatures. *)
Theorem CreateIdentity_outcome (rand : Reader) (id : string) :
  let privateKey := providers.createHardcodedKeyPair in
  let publicKey :=
    hex.EncodeToString
      (big.Bytes (ecdsa.Public privateKey).1
       ++ big.Bytes (ecdsa.Public privateKey).2) in
  let first := providers.signData (rand 0%nat) privateKey (bytes_of_string id) in
  let second :=
    providers.signData (rand 1%nat) privateKey (bytes_of_string publicKey) in
  let signatures : gmap string string :=
    <["id" := first.1]> (<["publicKey" := second.1]> ∅) in
  let encoded :=
    identitytypes.EncodeIdentity
      (identitytypes.mkIdentity id publicKey (Some privateKey) signatures
         providers.Type_ "" []) in
  match providers.CreateIdentity rand id with
  | (Some identity, None) =>
      first.2 = None /\ second.2 = None /\ encoded.2 = None
      /\ identity
         = identitytypes.mkIdentity id publicKey (Some privateKey) signatures
             providers.Type_ encoded.1.1 encoded.1.2
  | (None, Some err) =>
      first.2 = Some err
      \/ (first.2 = None /\ second.2 = Some err)
      \/ (first.2 = None /\ second.2 = None /\ encoded.2 = Some err)
  | _ => False
  end.
Proof.
  intros privateKey publicKey first second signatures encoded.
  unfold providers.CreateIdentity. fold privateKey. fold publicKey.
  fold first. fold second. subst signatures encoded.
  clearbody first second.
  destruct first as [sig1 [e1|]]; [by left|].
  destruct second as [sig2 [e2|]]; [right; by left|].
  cbn [fst snd identitytypes.Signatures].
  destruct (identitytypes.EncodeIdentity _) as [[hash bs] [e3|]];
    cbn [fst snd].
  - right. right. by split.
  - split; [reflexivity|]. split; [reflexivity|]. split; reflexivity.
Qed.

(** X17. The public-key provider's [VerifyIdentity] returns [true]
    exactly when it returns no error, and this exactly when the identity
    passes [IsIdentity], carries both self-signatures, and [Verify]
    accepts the first for the id and the second for the public key. An
    identity that fails the first check is reported with the error of
    the first check, whatever its signatures. *)
Theorem VerifyIdentity_true_iff_no_error (identity : identitytypes.Identity) :
  let accepted :=
    identitytypes.IsIdentity identity
    && match identitytypes.Signatures identity !! "id" with
       | Some idSignature =>
           providers.Verify identity idSignature
             (bytes_of_string (identitytypes.ID identity))
       | None => false
       end
    && match identitytypes.Signatures identity !! "publicKey" with
       | Some publicKeySignature =>
           providers.Verify identity publicKeySignature
             (bytes_of_string (identitytypes.PublicKey identity))
       | None => false
       end in
  (providers.VerifyIdentity identity).1 = accepted
  /\ ((providers.VerifyIdentity identity).2 = None <-> accepted = true)
  /\ (identitytypes.IsIdentity identity = false ->
      providers.VerifyIdentity identity
      = (false, Some "identity is missing required fields")).
Proof.
  intros accepted. subst accepted. unfold providers.VerifyIdentity.
  destruct (identitytypes.IsIdentity identity); cbn [negb andb];
    [|split; [reflexivity|split; [split; discriminate|reflexivity]]].
  destruct (identitytypes.Signatures identity !! "id") as [idSignature|];
    [|split; [reflexivity|split; [split; discriminate|discriminate]]].
  destruct (providers.Verify identity idSignature _); cbn [negb andb];
    [|split; [reflexivity|split; [split; discriminate|discriminate]]].
  destruct (identitytypes.Signatures identity !! "publicKey") as [pkSignature|];
    [|split; [reflexivity|split; [split; discriminate|discriminate]]].
  destruct (providers.Verify identity pkSignature _); cbn [negb];
    split; try reflexivity; split; try discriminate; split;
    (reflexivity || discriminate).
Qed.

(** ** The legacy provider: what else verifies *)

Lemma digit_val_upper (c : ascii) :
  big.digit_val (upper_char c) = big.digit_val c.
Proof. destruct c as [[] [] [] [] [] [] [] []]; reflexivity. Qed.

Lemma upper_char_sign (c : ascii) :
  (Ascii.eqb (upper_char c) "+"%char = Ascii.eqb c "+"%char)
  /\ (Ascii.eqb (upper_char c) "-"%char = Ascii.eqb c "-"%char).
Proof. destruct c as [[] [] [] [] [] [] [] []]; split; reflexivity. Qed.

Lemma scan_digits_upper (base acc : Z) (s : string) :
  big.scan_digits base acc (ToUpper s) = big.scan_digits base acc s.
Proof.
  revert acc. induction s as [|c s IH]; intros acc; [reflexivity|].
  cbn [ToUpper big.scan_digits]. rewrite digit_val_upper.
  destruct (big.digit_val c) as [d|]; [|reflexivity].
  destruct (d <? base); [apply IH|reflexivity].
Qed.

Lemma scan_abs_upper (base : Z) (s : string) :
  big.scan_abs base (ToUpper s) = big.scan_abs base s.
Proof.
  destruct s as [|c s]; [reflexivity|].
  exact (scan_digits_upper base 0 (String c s)).
Qed.

Lemma SetString_upper (s : string) (base : Z) :
  big.SetString (ToUpper s) base = big.SetString s base.
Proof.
  destruct s as [|c s]; [reflexivity|].
  change (ToUpper (String c s)) with (String (upper_char c) (ToUpper s)).
  rewrite !SetString_cons. destruct (upper_char_sign c) as [-> ->].
  rewrite scan_abs_upper.
  change (String (upper_char c) (ToUpper s)) with (ToUpper (String c s)).
  by rewrite scan_abs_upper.
Qed.

Lemma ToUpper_length (s : string) : String.length (ToUpper s) = String.length s.
Proof. induction s as [|c s IH]; [reflexivity|]. simpl. by rewrite IH. Qed.

Lemma substring_upper (n m : nat) (s : string) :
  String.substring n m (ToUpper s) = ToUpper (String.substring n m s).
Proof.
  revert n m. induction s as [|c s IH]; intros [|n] [|m]; simpl;
    try reflexivity; by rewrite IH.
Qed.

(** X15. [VerifyIdentityWithEntry] reads the halves of a signature with
    [SetString] in base 16, which takes letters in both cases: a
    signature and its upper-case form are two strings with the same
    result, error included, and so they are for [VerifyEntrySignature].
    The signature string of an entry that verifies is therefore not the
    only one that does. *)
Theorem VerifyIdentityWithEntry_ignores_case
    (identity : identities.Identity) (data : bytes) (signature : string) :
  legacy_provider.VerifyIdentityWithEntry identity data (ToUpper signature)
  = legacy_provider.VerifyIdentityWithEntry identity data signature
  /\ signature_numbers (ToUpper signature) = signature_numbers signature
  /\ (forall (entry : oplog.Entry) (cid : cid.Cid),
        oplog.VerifyEntrySignature legacy_registry (Some identity)
          (oplog.mkEncodedEntry
             (oplog.set_Signature (ToUpper signature) entry) data cid)
        = oplog.VerifyEntrySignature legacy_registry (Some identity)
            (oplog.mkEncodedEntry
               (oplog.set_Signature signature entry) data cid)).
Proof.
  assert (H : legacy_provider.VerifyIdentityWithEntry identity data
                (ToUpper signature)
              = legacy_provider.VerifyIdentityWithEntry identity data signature).
  { unfold legacy_provider.VerifyIdentityWithEntry, slice_to, slice_from.
    by rewrite ToUpper_length, !substring_upper, !SetString_upper. }
  split; [exact H|]. split.
  - unfold signature_numbers, slice_to, slice_from.
    by rewrite ToUpper_length, !substring_upper, !SetString_upper.
  - intros entry cid. unfold oplog.VerifyEntrySignature.
    destruct (provider_registry.GetIdentityProvider _ _) as [p|] eqn:E;
      [|reflexivity].
    unfold provider_registry.GetIdentityProvider, legacy_registry,
      provider_registry.RegisterIdentityProvider in E.
    destruct (decide (identities.Type_ identity = "publickey")) as [Ht|Ht].
    + rewrite Ht in E. change (inl legacy_provider.NewPublicKeyIdentityProvider
        = (inl p : provider_registry.Provider + error)) in E.
      injection E as <-.
      cbn [oplog.Bytes oplog.EncodedEntry_Entry oplog.set_Signature
           oplog.Signature provider_registry.VerifyIdentityWithEntry
           legacy_provider.NewPublicKeyIdentityProvider].
      by rewrite H.
    + cbn [provider_registry.Type_
           legacy_provider.NewPublicKeyIdentityProvider] in E.
      rewrite lookup_insert_ne in E by (intros E'; by symmetry in E').
      rewrite lookup_empty in E. discriminate E.
Qed.

(** ** The identity manager: storage *)

Lemma CreateIdentity_step (is_identity_nil : outcome bool) (rand : Reader)
    (ids ids' : manager.Identities) (id : string)
    (res : result (option identitytypes.Identity)) :
  manager.CreateIdentity is_identity_nil rand ids id = Returns (ids', res) ->
  manager.provider ids' = manager.provider ids
  /\ match res with
     | (Some identity, None) =>
         manager.Provider_CreateIdentity (manager.provider ids) rand id
         = (Some identity, None)
         /\ identitytypes.IsIdentity identity = true
         /\ manager.storage ids'
            = <[identitytypes.Hash identity := identity]> (manager.storage ids)
     | (None, Some err) =>
         manager.storage ids' = manager.storage ids
         /\ ((manager.Provider_CreateIdentity (manager.provider ids) rand id).2
             = Some err
             \/ err = "invalid identity created")
     | _ => False
     end.
Proof.
  unfold manager.CreateIdentity.
  destruct (manager.Provider_CreateIdentity _ rand id)
    as [[identity|] [err|]]; cbn [snd].
  - intros [= <- <-]. split; [reflexivity|]. split; [reflexivity|by left].
  - destruct (identitytypes.IsIdentity identity) eqn:E; cbn [negb].
    + intros [= <- <-]. split; [reflexivity|]. by split.
    + intros [= <- <-]. split; [reflexivity|]. split; [reflexivity|by right].
  - intros [= <- <-]. split; [reflexivity|]. split; [reflexivity|by left].
  - destruct is_identity_nil as [[]|e]; cbn [mbind outcome_bind negb];
      [discriminate| |discriminate].
    intros [= <- <-]. split; [reflexivity|]. split; [reflexivity|by right].
Qed.

(** X16. Whatever the provider, a call of the manager's [CreateIdentity]
    that returns either stores the identity it returns, under the hash
    of that identity and after [IsIdentity] accepted it, or returns no
    identity, an error, and leaves the storage as it was; the provider
    of the manager never changes. Hence in every manager reached from
    [NewIdentities] by calls of [CreateIdentity], each stored identity is
    kept under its own hash and has passed [IsIdentity]. *)
Theorem manager_storage_invariant
    (p : manager.Provider) (ids : manager.Identities) :
  reachable p ids ->
  manager.provider ids = p
  /\ storage_ok ids
  /\ (forall (is_identity_nil : outcome bool) (rand : Reader) (id : string)
             (ids' : manager.Identities)
             (res : result (option identitytypes.Identity)),
        manager.CreateIdentity is_identity_nil rand ids id
        = Returns (ids', res) ->
        match res with
        | (Some identity, None) =>
            manager.storage ids' !! identitytypes.Hash identity = Some identity
            /\ (forall hash : string,
                  hash <> identitytypes.Hash identity ->
                  manager.storage ids' !! hash = manager.storage ids !! hash)
        | (None, Some _) => manager.storage ids' = manager.storage ids
        | _ => False
        end).
Proof.
  intros Hr. assert (Hinv : manager.provider ids = p /\ storage_ok ids).
  { induction Hr as [|ids ids' nil_ok rand id res _ [IHp IHs] Hstep].
    - split; [reflexivity|]. intros hash identity H.
      cbn [manager.storage] in H. by rewrite lookup_empty in H.
    - apply CreateIdentity_step in Hstep as [Hp Hres].
      split; [by rewrite Hp|].
      destruct res as [[identity|] [err|]]; try done.
      + destruct Hres as (_ & Hok & Hs). intros hash i. rewrite Hs.
        destruct (decide (identitytypes.Hash identity = hash)) as [<-|Hne].
        * rewrite lookup_insert_eq. intros [= <-]. by split.
        * rewrite lookup_insert_ne by done. apply IHs.
      + destruct Hres as [Hs _]. intros hash i. rewrite Hs. apply IHs. }
  destruct Hinv as [Hp Hs]. split; [exact Hp|]. split; [exact Hs|].
  intros nil_ok rand id ids' res Hstep.
  apply CreateIdentity_step in Hstep as [_ Hres].
  destruct res as [[identity|] [err|]]; try done.
  - destruct Hres as (_ & _ & ->). split; [by rewrite lookup_insert_eq|].
    intros hash Hne. by rewrite lookup_insert_ne.
  - by destruct Hres as [-> _].
Qed.

Lemma manager_storage_invariant_witness :
  exists (identity : identitytypes.Identity) (ids' : manager.Identities),
    manager.CreateIdentity (Returns false) (reader_of nonce_0 nonce_1)
      (manager.mkIdentities ∅ manager.NewPublicKeyProvider) "alice"
    = Returns (ids', (Some identity, None))
    /\ storage_ok ids'
    /\ manager.storage ids' !! identitytypes.Hash identity = Some identity.
Proof.
  destruct CreateIdentity_alice_verifies as (identity & H & Hv).
  assert (Hi : identitytypes.IsIdentity identity = true).
  { unfold providers.VerifyIdentity in Hv.
    destruct (identitytypes.IsIdentity identity); [reflexivity|].
    discriminate Hv. }
  exists identity. eexists.
  assert (Hstep :
    manager.CreateIdentity (Returns false) (reader_of nonce_0 nonce_1)
      (manager.mkIdentities ∅ manager.NewPublicKeyProvider) "alice"
    = Returns
        (manager.mkIdentities
           (<[identitytypes.Hash identity := identity]> ∅)
           manager.NewPublicKeyProvider,
         (Some identity, None))).
  { unfold manager.CreateIdentity.
    cbn [manager.provider manager.storage manager.NewPublicKeyProvider
         manager.Provider_CreateIdentity].
    rewrite H, Hi. reflexivity. }
  split; [exact Hstep|].
  pose proof (manager_storage_invariant manager.NewPublicKeyProvider _
    (reachable_create _ _ _ _ _ _ _ (reachable_new _) Hstep)) as (_ & Hok & _).
  split; [exact Hok|]. cbn [manager.storage]. apply lookup_insert_eq.
Defined.
